(** * Portfolio Projection: the quote resolver and the row view-model

    A shallow embedding of [src/App.jsx]: the price resolver
    [fetchCurrentPrice] with its three-source fallback chain, the row
    operations of the [App] component ([updateTicker], [updateShares],
    [updateTarget], [addRow], [removeRow], [fetchAllPrices]) and the derived
    per-row and aggregate metrics.

    Modelling conventions.
    - A JavaScript number is an IEEE 754 binary64 value: the primitive
      [float] type, whose operations are the ones the JavaScript engine
      performs.
    - A JavaScript string is a [string]; the built-in string functions the
      program calls are modelled on ASCII (lower-casing, white space and
      percent-encoding act on the ASCII range, other characters pass
      through as their bytes). Upper-casing, which only the chart uses, is
      a parameter of [chartData].
    - The network is an oracle from the requested URL to what [fetch]
      settles with; every exchange is recorded in a log.
    - [genId] draws on the clock and the random generator: what it
      returns, an id used before or not, is an input of [addRow]. *)

From Stdlib Require Import Floats ZArith NArith Bool Ascii String List Lia.
From Stdlib Require Import DecimalString DecimalZ DecimalPos.
Import ListNotations.

Local Open Scope list_scope.
Local Open Scope string_scope.

Set Warnings "-register-all".

(** ** JavaScript built-ins used by the program *)

Module JS.

(** *** Characters *)

Definition code (c : ascii) : N := N_of_ascii c.

Definition is_upper (c : ascii) : bool := (65 <=? code c)%N && (code c <=? 90)%N.
Definition is_lower (c : ascii) : bool := (97 <=? code c)%N && (code c <=? 122)%N.
Definition is_digit (c : ascii) : bool := (48 <=? code c)%N && (code c <=? 57)%N.
Definition is_letter (c : ascii) : bool := is_upper c || is_lower c.

(** White space and line terminators of the ASCII range: TAB, LF, VT, FF,
    CR and SP. *)
Definition is_space (c : ascii) : bool :=
  ((9 <=? code c)%N && (code c <=? 13)%N) || (code c =? 32)%N.

Definition lower_char (c : ascii) : ascii :=
  if is_upper c then ascii_of_N (code c + 32) else c.

(** *** Strings *)

Fixpoint map_chars (f : ascii -> ascii) (s : string) : string :=
  match s with
  | EmptyString => EmptyString
  | String c r => String (f c) (map_chars f r)
  end.

Fixpoint all_chars (p : ascii -> bool) (s : string) : bool :=
  match s with
  | EmptyString => true
  | String c r => p c && all_chars p r
  end.

(** [s.toLowerCase()] *)
Definition toLowerCase (s : string) : string := map_chars lower_char s.

(** [/^[a-z]+$/i.test(s)]: one or more characters, each a letter. *)
Definition test_letters (s : string) : bool :=
  match s with
  | EmptyString => false
  | String _ _ => all_chars is_letter s
  end.

(** [s.endsWith(suffix)] *)
Definition endsWith (suffix s : string) : bool :=
  (String.length suffix <=? String.length s)%nat
  && String.eqb
       (substring (String.length s - String.length suffix) (String.length suffix) s)
       suffix.

(** [s.replace(/<suffix>$/, by)] for a literal suffix: the only place the
    pattern can match is the end of the string. *)
Definition replace_suffix (suffix by_ s : string) : string :=
  if endsWith suffix s
  then substring 0 (String.length s - String.length suffix) s ++ by_
  else s.

Fixpoint trimStart (s : string) : string :=
  match s with
  | EmptyString => EmptyString
  | String c r => if is_space c then trimStart r else s
  end.

(** Drops the white space at the end: a character is kept when it is not
    white space or something is kept after it. *)
Fixpoint trimEnd (s : string) : string :=
  match s with
  | EmptyString => EmptyString
  | String c r =>
      match trimEnd r with
      | EmptyString => if is_space c then EmptyString else String c EmptyString
      | r' => String c r'
      end
  end.

(** [s.trim()] *)
Definition trim (s : string) : string := trimEnd (trimStart s).

(** [s.split(/\r?\n/)], with the piece being read in [cur]. *)
Fixpoint split_lines_from (cur : string) (s : string) : list string :=
  match s with
  | EmptyString => [cur]
  | String c r =>
      if (code c =? 10)%N then cur :: split_lines_from EmptyString r
      else if (code c =? 13)%N then
        match r with
        | String d r' =>
            if (code d =? 10)%N then cur :: split_lines_from EmptyString r'
            else split_lines_from (cur ++ String c EmptyString) r
        | EmptyString => split_lines_from (cur ++ String c EmptyString) r
        end
      else split_lines_from (cur ++ String c EmptyString) r
  end.

Definition split_lines (s : string) : list string :=
  split_lines_from EmptyString s.

(** [s.split(sep)] for a one-character separator. *)
Fixpoint split_char_from (sep : ascii) (cur : string) (s : string) : list string :=
  match s with
  | EmptyString => [cur]
  | String c r =>
      if Ascii.eqb c sep then cur :: split_char_from sep EmptyString r
      else split_char_from sep (cur ++ String c EmptyString) r
  end.

Definition split_char (sep : ascii) (s : string) : list string :=
  split_char_from sep EmptyString s.

(** *** [encodeURIComponent] *)

Definition hex_digit (n : N) : ascii :=
  if (n <? 10)%N then ascii_of_N (48 + n) else ascii_of_N (55 + n).

(** The characters [encodeURIComponent] leaves as they are: letters,
    digits and [- _ . ! ~ * ' ( )]. *)
Definition uri_unreserved (c : ascii) : bool :=
  is_letter c || is_digit c
  || existsb (N.eqb (code c)) [45; 95; 46; 33; 126; 42; 39; 40; 41]%N.

Fixpoint encodeURIComponent (s : string) : string :=
  match s with
  | EmptyString => EmptyString
  | String c r =>
      if uri_unreserved c then String c (encodeURIComponent r)
      else String "%" (String (hex_digit (code c / 16))
                         (String (hex_digit (code c mod 16))
                            (encodeURIComponent r)))
  end.

(** *** Numbers *)

Definition isNaN (x : float) : bool := is_nan x.

(** [x || 0] on a number: the falsy numbers are [0], [-0] and [NaN]. *)
Definition falsy (x : float) : bool := is_zero x || is_nan x.
Definition or_zero (x : float) : float := if falsy x then 0%float else x.

(** *** [parseFloat] *)

Fixpoint span_digits (s : string) : string * string :=
  match s with
  | EmptyString => (EmptyString, EmptyString)
  | String c r =>
      if is_digit c then let (d, rest) := span_digits r in (String c d, rest)
      else (EmptyString, s)
  end.

Fixpoint digits_value_from (acc : N) (s : string) : N :=
  match s with
  | EmptyString => acc
  | String c r => digits_value_from (10 * acc + (code c - 48)) r
  end.

Definition digits_value (s : string) : N := digits_value_from 0 s.

(** The binary64 value nearest to [m * 10 ^ e10] (ties to even), as the
    correctly rounded quotient of two integers. *)
Definition decimal_to_float (neg : bool) (m : N) (e10 : Z) : float :=
  match m with
  | N0 => if neg then PrimFloat.neg_zero else 0%float
  | Npos p =>
      let num := (p * Z.to_pos (10 ^ Z.max e10 0))%positive in
      let den := Z.to_pos (10 ^ Z.max (- e10) 0) in
      SF2Prim (SFdiv prec emax (S754_finite neg num 0) (S754_finite false den 0))
  end.

(** The exponent part [e|E (+|-)? digits] at the head of [s], or 0 when
    there is none. *)
Definition exponent_part (s : string) : Z :=
  match s with
  | String c r =>
      if (code c =? 101)%N || (code c =? 69)%N then
        let '(neg, r') :=
          match r with
          | String "-" t => (true, t)
          | String "+" t => (false, t)
          | _ => (false, r)
          end in
        let (ed, _) := span_digits r' in
        match ed with
        | EmptyString => 0%Z
        | _ => if neg then (- Z.of_N (digits_value ed))%Z else Z.of_N (digits_value ed)
        end
      else 0%Z
  | EmptyString => 0%Z
  end.

(** [parseFloat(s)]: leading white space is skipped, the longest prefix
    that is a decimal literal is converted, and [NaN] is the answer when
    there is no such prefix. *)
Definition parseFloat (s : string) : float :=
  let t := trimStart s in
  let '(neg, u) :=
    match t with
    | String "-" r => (true, r)
    | String "+" r => (false, r)
    | _ => (false, t)
    end in
  if prefix "Infinity" u then (if neg then neg_infinity else infinity)
  else
    let (ip, r1) := span_digits u in
    let (fp, r2) :=
      match r1 with
      | String "." r => span_digits r
      | _ => (EmptyString, r1)
      end in
    match ip ++ fp with
    | EmptyString => nan
    | ds =>
        decimal_to_float neg (digits_value ds)
          (exponent_part r2 - Z.of_nat (String.length fp))
    end.

(** [parseFloat(parts[i])]: an index out of range reads [undefined], whose
    string form is not a number. *)
Definition parseFloat_at (parts : list string) (i : nat) : float :=
  match nth_error parts i with
  | Some s => parseFloat s
  | None => nan
  end.

End JS.

(** *** Values read from a JSON payload *)

Inductive value : Type :=
| VUndefined
| VNull
| VBool (b : bool)
| VNum (x : float)
| VStr (s : string)
| VArr (items : list value)
| VObj (fields : list (string * value)).

Module Value.

(** The value of the own property [k] of an object with these fields. *)
Fixpoint lookup (k : string) (fields : list (string * value)) : value :=
  match fields with
  | [] => VUndefined
  | (k', v) :: rest => if String.eqb k' k then v else lookup k rest
  end.

Definition nullish (v : value) : bool :=
  match v with
  | VUndefined | VNull => true
  | _ => false
  end.

(** [v.k] on a value that is neither [null] nor [undefined]. The names the
    program reads are properties of no built-in prototype, so only an
    object can hold them. *)
Definition get (k : string) (v : value) : value :=
  match v with
  | VObj fields => lookup k fields
  | _ => VUndefined
  end.

(** [v?.k] *)
Definition opt_get (k : string) (v : value) : value :=
  if nullish v then VUndefined else get k v.

(** [v?.[0]]: the first element of an array, the first character of a
    string, the property ["0"] of an object. *)
Definition opt_first (v : value) : value :=
  match v with
  | VArr (x :: _) => x
  | VStr (String c _) => VStr (String c EmptyString)
  | VObj fields => lookup "0" fields
  | _ => VUndefined
  end.

(** [a ?? b] *)
Definition coalesce (a b : value) : value := if nullish a then b else a.

(** [typeof price === 'number' && !isNaN(price)], with the number that
    passes the test. *)
Definition valid_price (price : value) : option float :=
  match price with
  | VNum x => if JS.isNaN x then None else Some x
  | _ => None
  end.

End Value.

(** ** The network and the effects of the resolver *)

(** What a settled [fetch] hands back: the [ok] flag, what [json()]
    resolves to ([None]: the body is not JSON and the promise rejects) and
    what [text()] resolves to. *)
Record response : Type := mkResponse {
  ok : bool;
  json : option value;
  text : option string
}.

Inductive fetch_outcome : Type :=
| Rejected
| Responded (r : response).

(** The oracle: what [fetch(url)] settles with. *)
Definition Net : Type := string -> fetch_outcome.

(** One request and what came back. *)
Definition exchange : Type := (string * fetch_outcome)%type.

(** How a piece of code completes: with a value, or by throwing. *)
Inductive completion (A : Type) : Type :=
| Normal (a : A)
| Thrown.
Arguments Normal {A} a.
Arguments Thrown {A}.

(** Code that talks to the network, may throw, and leaves a log of its
    exchanges (oldest first). *)
Definition M (A : Type) : Type := Net -> list exchange -> completion A * list exchange.

Definition ret {A} (a : A) : M A := fun _ log => (Normal a, log).

Definition bind {A B} (m : M A) (k : A -> M B) : M B :=
  fun net log =>
    match m net log with
    | (Normal a, log') => k a net log'
    | (Thrown, log') => (Thrown, log')
    end.

Notation "x <- m ;; k" := (bind m (fun x => k))
  (at level 61, m at next level, right associativity).

(** [try { body } catch { handler }] *)
Definition try_catch {A} (body handler : M A) : M A :=
  fun net log =>
    match body net log with
    | (Normal a, log') => (Normal a, log')
    | (Thrown, log') => handler net log'
    end.

(** [await fetch(url)]: a rejected promise throws at the [await]. *)
Definition fetch (url : string) : M response :=
  fun net log =>
    match net url with
    | Responded r => (Normal r, (log ++ [(url, Responded r)])%list)
    | Rejected => (Thrown, (log ++ [(url, Rejected)])%list)
    end.

Definition await_option {A} (o : option A) : M A :=
  fun _ log =>
    match o with
    | Some a => (Normal a, log)
    | None => (Thrown, log)
    end.

(** [await res.json()] and [await res.text()] *)
Definition await_json (r : response) : M value := await_option (json r).
Definition await_text (r : response) : M string := await_option (text r).

(** ** The quote resolver *)

Definition proxyBase : string := "https://api.allorigins.win/raw?url=".

Definition quoteEndpoint (ticker : string) : string :=
  "https://query1.finance.yahoo.com/v7/finance/quote?symbols="
  ++ JS.encodeURIComponent ticker.

Definition chartEndpoint (ticker : string) : string :=
  "https://query1.finance.yahoo.com/v8/finance/chart/"
  ++ JS.encodeURIComponent ticker ++ "?range=1d&interval=1d".

Definition stooqUrl (stooqSymbol : string) : string :=
  "https://stooq.pl/q/l/?s=" ++ JS.encodeURIComponent stooqSymbol
  ++ "&f=sd2t2ohlcvn&h&e=csv".

(** The address a request goes to: the endpoint behind the proxy. *)
Definition proxied (endpoint : string) : string :=
  proxyBase ++ JS.encodeURIComponent endpoint.

(** The price in a payload of the quote endpoint:
    [quoteData?.quoteResponse?.result?.[0] ?? {}], then
    [regularMarketPrice ?? regularMarketPreviousClose ?? null]. *)
Definition quote_price (quoteData : value) : value :=
  let result :=
    Value.coalesce
      (Value.opt_first (Value.opt_get "result" (Value.opt_get "quoteResponse" quoteData)))
      (VObj []) in
  Value.coalesce
    (Value.coalesce (Value.get "regularMarketPrice" result)
                    (Value.get "regularMarketPreviousClose" result))
    VNull.

(** The price in a payload of the chart endpoint:
    [chartData?.chart?.result?.[0]?.meta ?? {}], then
    [regularMarketPrice ?? chartPreviousClose ?? null]. *)
Definition chart_price (chartData : value) : value :=
  let meta :=
    Value.coalesce
      (Value.opt_get "meta"
         (Value.opt_first (Value.opt_get "result" (Value.opt_get "chart" chartData))))
      (VObj []) in
  Value.coalesce
    (Value.coalesce (Value.get "regularMarketPrice" meta)
                    (Value.get "chartPreviousClose" meta))
    VNull.

(** The close of a Stooq answer: the seventh field of the second line. *)
Definition csv_close (csv : string) : option float :=
  let lines := JS.split_lines (JS.trim csv) in
  if (1 <? List.length lines)%nat then
    let parts := JS.split_char "," (nth 1 lines EmptyString) in
    let close := JS.parseFloat_at parts 6 in
    if JS.isNaN close then None else Some close
  else None.

(** The symbol Stooq knows the ticker by. *)
Definition stooqSymbol (ticker : string) : string :=
  let stooqSymbol := JS.toLowerCase ticker in
  if JS.test_letters stooqSymbol then stooqSymbol ++ ".us"
  else if JS.endsWith "-usd" stooqSymbol then JS.replace_suffix "-usd" ".v" stooqSymbol
  else stooqSymbol.

(** The three steps. Each is a [try] block whose result is [Some price] when
    the block returns from the function and [None] when control falls out of
    it, also through the empty [catch]. *)
Definition tryQuote (ticker : string) : M (option float) :=
  try_catch
    (quoteRes <- fetch (proxied (quoteEndpoint ticker)) ;;
     if ok quoteRes then
       quoteData <- await_json quoteRes ;;
       ret (Value.valid_price (quote_price quoteData))
     else ret None)
    (ret None).

Definition tryChart (ticker : string) : M (option float) :=
  try_catch
    (chartRes <- fetch (proxied (chartEndpoint ticker)) ;;
     if ok chartRes then
       chartData <- await_json chartRes ;;
       ret (Value.valid_price (chart_price chartData))
     else ret None)
    (ret None).

Definition tryStooq (symbol : string) : M (option float) :=
  try_catch
    (stooqRes <- fetch (proxied (stooqUrl symbol)) ;;
     if ok stooqRes then
       csv <- await_text stooqRes ;;
       ret (csv_close csv)
     else ret None)
    (ret None).

(** [fetchCurrentPrice(ticker)]; [None] is [null]. *)
Definition fetchCurrentPrice (ticker : string) : M (option float) :=
  if String.eqb ticker "" then ret None
  else
    quote <- tryQuote ticker ;;
    match quote with
    | Some price => ret (Some price)
    | None =>
        chart <- tryChart ticker ;;
        match chart with
        | Some price => ret (Some price)
        | None =>
            close <- tryStooq (stooqSymbol ticker) ;;
            match close with
            | Some price => ret (Some price)
            | None => ret None
            end
        end
    end.

(** ** What the resolver does, step by step *)
(** The outcome of each step as a function of what its request settled
    with. *)
Definition quote_result (o : fetch_outcome) : option float :=
  match o with
  | Responded r =>
      if ok r then
        match json r with
        | Some quoteData => Value.valid_price (quote_price quoteData)
        | None => None
        end
      else None
  | Rejected => None
  end.

Definition chart_result (o : fetch_outcome) : option float :=
  match o with
  | Responded r =>
      if ok r then
        match json r with
        | Some chartData => Value.valid_price (chart_price chartData)
        | None => None
        end
      else None
  | Rejected => None
  end.

Definition stooq_result (o : fetch_outcome) : option float :=
  match o with
  | Responded r =>
      if ok r then
        match text r with
        | Some csv => csv_close csv
        | None => None
        end
      else None
  | Rejected => None
  end.

Definition quoteRequest (ticker : string) : string := proxied (quoteEndpoint ticker).
Definition chartRequest (ticker : string) : string := proxied (chartEndpoint ticker).
Definition stooqRequest (ticker : string) : string := proxied (stooqUrl (stooqSymbol ticker)).

(** The exchange a request to [url] leaves in the log. *)
Definition asked (net : Net) (url : string) : exchange := (url, net url).

(** The whole chain: the price and the exchanges it adds to the log. *)
Definition chain (ticker : string) (net : Net) : option float * list exchange :=
  if String.eqb ticker "" then (None, [])
  else
    let e1 := asked net (quoteRequest ticker) in
    match quote_result (net (quoteRequest ticker)) with
    | Some price => (Some price, [e1])
    | None =>
        let e2 := asked net (chartRequest ticker) in
        match chart_result (net (chartRequest ticker)) with
        | Some price => (Some price, [e1; e2])
        | None =>
            (stooq_result (net (stooqRequest ticker)),
             [e1; e2; asked net (stooqRequest ticker)])
        end
    end.

(** ** Rows *)

Record asset : Type := mkAsset {
  id : string;
  ticker : string;
  shares : float;
  currentPrice : option float;
  targetPrice : float;
  loading : bool;
  error : option string
}.

(** The row [useState] starts with, [addRow] appends and [removeRow] resets
    to. *)
Definition blank (i : string) : asset :=
  {| id := i; ticker := ""; shares := 0; currentPrice := None;
     targetPrice := 0; loading := false; error := None |}.

(** [parsed] with [NaN] replaced: [isNaN(parsed) ? 0 : parsed]. *)
Definition coerce (parsed : float) : float :=
  if JS.isNaN parsed then 0%float else parsed.

(** The state updaters: each is the function handed to [setAssets]. *)

Definition updateTicker (id0 ticker0 : string) (prev : list asset) : list asset :=
  map (fun asset =>
         if String.eqb (id asset) id0 then
           {| id := id asset; ticker := ticker0; shares := shares asset;
              currentPrice := None; targetPrice := targetPrice asset;
              loading := false; error := None |}
         else asset) prev.

Definition updateShares (id0 shares0 : string) (prev : list asset) : list asset :=
  let parsed := JS.parseFloat shares0 in
  map (fun asset =>
         if String.eqb (id asset) id0 then
           {| id := id asset; ticker := ticker asset; shares := coerce parsed;
              currentPrice := currentPrice asset; targetPrice := targetPrice asset;
              loading := loading asset; error := error asset |}
         else asset) prev.

Definition updateTarget (id0 price0 : string) (prev : list asset) : list asset :=
  let parsed := JS.parseFloat price0 in
  map (fun asset =>
         if String.eqb (id asset) id0 then
           {| id := id asset; ticker := ticker asset; shares := shares asset;
              currentPrice := currentPrice asset; targetPrice := coerce parsed;
              loading := loading asset; error := error asset |}
         else asset) prev.

(** [newId] is what [genId()] returns. *)
Definition addRow (newId : string) (prev : list asset) : list asset :=
  (prev ++ [blank newId])%list.

(** [prev[0].id] throws when there is no [prev[0]]. *)
Definition removeRow (id0 : string) (prev : list asset) : completion (list asset) :=
  if (List.length prev =? 1)%nat then
    match nth_error prev 0 with
    | Some first => Normal [blank (id first)]
    | None => Thrown
    end
  else Normal (filter (fun asset => negb (String.eqb (id asset) id0)) prev).

(** *** [fetchAllPrices] *)

Module Result.
Record t : Type := mk {
  id : string;
  price : option float;
  error : option string
}.
End Result.

(** A string is truthy when it is not empty. *)
Definition truthy (s : string) : bool := negb (String.eqb s "").

(** The first [setAssets]: rows with a ticker start loading. *)
Definition markLoading (prev : list asset) : list asset :=
  map (fun asset =>
         if truthy (ticker asset) then
           {| id := id asset; ticker := ticker asset; shares := shares asset;
              currentPrice := None; targetPrice := targetPrice asset;
              loading := true; error := None |}
         else asset) prev.

(** The [async] callback of [assets.map]. *)
Definition fetchOne (asset : asset) : M Result.t :=
  if negb (truthy (ticker asset)) then
    ret (Result.mk (id asset) None None)
  else
    price <- fetchCurrentPrice (ticker asset) ;;
    ret (Result.mk (id asset) price
           (match price with
            | None => Some "Price unavailable"
            | Some _ => None
            end)).

(** [await Promise.all(assets.map(...))]: the calls run side by side, the
    call for the row at index [i] against the oracle [nets i]; the results
    come in the order of the rows, and one rejection rejects the whole. *)
Fixpoint fetchResults_from (i : nat) (nets : nat -> Net) (assets : list asset)
  : completion (list Result.t) :=
  match assets with
  | [] => Normal []
  | asset :: rest =>
      match fst (fetchOne asset (nets i) []), fetchResults_from (S i) nets rest with
      | Normal r, Normal rs => Normal (r :: rs)
      | _, _ => Thrown
      end
  end.

Definition fetchResults (nets : nat -> Net) (assets : list asset)
  : completion (list Result.t) :=
  fetchResults_from 0 nets assets.

(** The last [setAssets]: each row takes the result that carries its id. *)
Definition applyResults (results : list Result.t) (prev : list asset) : list asset :=
  map (fun asset =>
         match find (fun r => String.eqb (Result.id r) (id asset)) results with
         | Some res =>
             if negb (truthy (ticker asset)) then
               {| id := id asset; ticker := ticker asset; shares := shares asset;
                  currentPrice := currentPrice asset; targetPrice := targetPrice asset;
                  loading := false; error := error asset |}
             else
               {| id := id asset; ticker := ticker asset; shares := shares asset;
                  currentPrice := Result.price res; targetPrice := targetPrice asset;
                  loading := false; error := Result.error res |}
         | None =>
             {| id := id asset; ticker := ticker asset; shares := shares asset;
                currentPrice := currentPrice asset; targetPrice := targetPrice asset;
                loading := false; error := error asset |}
         end) prev.

(** A round of [fetchAllPrices] that nothing interrupts, started on the
    rendered rows [assets]. When [Promise.all] rejects the function stops
    before its last [setAssets]. *)
Definition fetchAllPrices (nets : nat -> Net) (assets : list asset) : list asset :=
  match fetchResults nets assets with
  | Normal results => applyResults results (markLoading assets)
  | Thrown => markLoading assets
  end.

(** ** Derived figures *)

Record figures : Type := mkFigures {
  currentValue : float;
  targetValue : float;
  gain : float;
  returnPct : option float
}.

(** [asset.currentPrice || 0] *)
Definition price_or_zero (p : option float) : float :=
  match p with
  | Some x => JS.or_zero x
  | None => 0%float
  end.

(** The body of [assets.map] that builds [rows]. *)
Definition derive (asset : asset) : figures :=
  let current := (JS.or_zero (shares asset) * price_or_zero (currentPrice asset))%float in
  let target := (JS.or_zero (shares asset) * JS.or_zero (targetPrice asset))%float in
  let gain := (target - current)%float in
  let returnPct := if (0 <? current)%float then Some ((gain / current) * 100)%float else None in
  {| currentValue := current; targetValue := target; gain := gain; returnPct := returnPct |}.

Definition rows (assets : list asset) : list (asset * figures) :=
  map (fun asset => (asset, derive asset)) assets.

Definition currentTotal (assets : list asset) : float :=
  fold_left (fun acc r => (acc + currentValue (snd r))%float) (rows assets) 0%float.

Definition targetTotal (assets : list asset) : float :=
  fold_left (fun acc r => (acc + targetValue (snd r))%float) (rows assets) 0%float.

Definition gainTotal (assets : list asset) : float :=
  (targetTotal assets - currentTotal assets)%float.

Definition portfolioReturnPct (assets : list asset) : option float :=
  if (0 <? currentTotal assets)%float then
    Some (((targetTotal assets - currentTotal assets) / currentTotal assets) * 100)%float
  else None.

(** ** The session: user events and fetch rounds in flight *)

(** A call of [fetchCurrentPrice] that a round made: the row it was made
    for, the ticker it was given, the network it ran against, and what it
    returned. *)
Record call : Type := mkCall {
  call_id : string;
  call_ticker : string;
  call_net : Net;
  returned : option float
}.

(** [assets] is the React state. The other fields are bookkeeping the
    program does not hold: the rows each unfinished round of
    [fetchAllPrices] was started on (the [assets] its closure captured), the
    ids [genId] has handed out, and the calls of [fetchCurrentPrice] the
    finished rounds made. *)
Record state : Type := mkState {
  assets : list asset;
  inflight : list (list asset);
  issued : list string;
  calls : list call
}.

Inductive event : Type :=
| UpdateTicker (id0 value : string)
| UpdateShares (id0 value : string)
| UpdateTarget (id0 value : string)
| AddRow (newId : string)
| RemoveRow (id0 : string)
| FetchStart
| FetchDone (k : nat) (nets : nat -> Net).

Definition with_assets (s : state) (next : list asset) : state :=
  {| assets := next; inflight := inflight s; issued := issued s;
     calls := calls s |}.

Fixpoint remove_nth {A} (k : nat) (l : list A) : list A :=
  match l, k with
  | [], _ => []
  | _ :: rest, O => rest
  | x :: rest, S k' => x :: remove_nth k' rest
  end.

(** The calls of a round, read off what [Promise.all] handed back: the
    result at index [i] is the one of the callback for the row at index [i]
    of the rows the round was started on, which ran against [nets i] and
    called [fetchCurrentPrice] when that row had a ticker. *)
Fixpoint calls_from (i : nat) (nets : nat -> Net) (snapshot : list asset)
    (results : list Result.t) : list call :=
  match snapshot, results with
  | old :: rest, res :: more =>
      if truthy (ticker old) then
        mkCall (id old) (ticker old) (nets i) (Result.price res)
        :: calls_from (S i) nets rest more
      else calls_from (S i) nets rest more
  | _, _ => []
  end.

(** One event. [AddRow] takes whatever id [genId] returned, used before or
    not. *)
Definition step (s : state) (e : event) : option state :=
  match e with
  | UpdateTicker i v => Some (with_assets s (updateTicker i v (assets s)))
  | UpdateShares i v => Some (with_assets s (updateShares i v (assets s)))
  | UpdateTarget i v => Some (with_assets s (updateTarget i v (assets s)))
  | AddRow newId =>
      Some {| assets := addRow newId (assets s); inflight := inflight s;
              issued := newId :: issued s; calls := calls s |}
  | RemoveRow i =>
      match removeRow i (assets s) with
      | Normal next => Some (with_assets s next)
      | Thrown => None
      end
  | FetchStart =>
      Some {| assets := markLoading (assets s);
              inflight := (inflight s ++ [assets s])%list;
              issued := issued s; calls := calls s |}
  | FetchDone k nets =>
      match nth_error (inflight s) k with
      | Some snapshot =>
          match fetchResults nets snapshot with
          | Normal results =>
              Some {| assets := applyResults results (assets s);
                      inflight := remove_nth k (inflight s);
                      issued := issued s;
                      calls := (calls s ++ calls_from 0 nets snapshot results)%list |}
          | Thrown =>
              Some {| assets := assets s; inflight := remove_nth k (inflight s);
                      issued := issued s; calls := calls s |}
          end
      | None => None
      end
  end.

(** The same under the promise of [genId]'s comment, an id that was not
    handed out before: [AddRow] with a used id is not a step. *)
Definition fresh_step (s : state) (e : event) : option state :=
  match e with
  | AddRow newId =>
      if existsb (String.eqb newId) (issued s) then None else step s e
  | _ => step s e
  end.



Fixpoint run (stepper : state -> event -> option state) (s : state)
    (events : list event) : option state :=
  match events with
  | [] => Some s
  | e :: rest =>
      match stepper s e with
      | Some s' => run stepper s' rest
      | None => None
      end
  end.

(** The state after the first render, [firstId] being the id of its row. *)
Definition init (firstId : string) : state :=
  {| assets := [blank firstId]; inflight := []; issued := [firstId];
     calls := [] |}.

Definition reachable (s : state) : Prop :=
  exists firstId events, run step (init firstId) events = Some s.

Definition freshly_reachable (s : state) : Prop :=
  exists firstId events, run fresh_step (init firstId) events = Some s.





(** The ids of the rows after an event, from the ids before it. *)
Definition ids_after (e : event) (ids : list string) : list string :=
  match e with
  | AddRow newId => (ids ++ [newId])%list
  | RemoveRow i =>
      match ids with
      | [_] => ids
      | _ => filter (fun j => negb (String.eqb j i)) ids
      end
  | _ => ids
  end.

(** ** The words of the specification *)

(** The field [k] holds the number [p], which is not [NaN]. *)
Definition number_field (k : string) (fields : list (string * value)) (p : float) : Prop :=
  Value.lookup k fields = VNum p /\ is_nan p = false.

Definition absent (k : string) (fields : list (string * value)) : Prop :=
  Value.lookup k fields = VUndefined.

(** A payload of the quote endpoint whose first result carries the price
    [p]: as [regularMarketPrice], or as [regularMarketPreviousClose] when
    [regularMarketPrice] is absent. *)
Inductive quote_payload : value -> float -> Prop :=
| quote_market top inner fields more p :
    Value.lookup "quoteResponse" top = VObj inner ->
    Value.lookup "result" inner = VArr (VObj fields :: more) ->
    number_field "regularMarketPrice" fields p ->
    quote_payload (VObj top) p
| quote_previous top inner fields more p :
    Value.lookup "quoteResponse" top = VObj inner ->
    Value.lookup "result" inner = VArr (VObj fields :: more) ->
    absent "regularMarketPrice" fields ->
    number_field "regularMarketPreviousClose" fields p ->
    quote_payload (VObj top) p.

(** The same for the chart endpoint: the price is in the [meta] of the
    first result, as [regularMarketPrice] or as [chartPreviousClose]. *)
Inductive chart_payload : value -> float -> Prop :=
| chart_market top inner first more fields p :
    Value.lookup "chart" top = VObj inner ->
    Value.lookup "result" inner = VArr (VObj first :: more) ->
    Value.lookup "meta" first = VObj fields ->
    number_field "regularMarketPrice" fields p ->
    chart_payload (VObj top) p
| chart_previous top inner first more fields p :
    Value.lookup "chart" top = VObj inner ->
    Value.lookup "result" inner = VArr (VObj first :: more) ->
    Value.lookup "meta" first = VObj fields ->
    absent "regularMarketPrice" fields ->
    number_field "chartPreviousClose" fields p ->
    chart_payload (VObj top) p.

(** The close field of a CSV answer: the seventh field of its second
    line. *)
Definition close_field (csv : string) : option string :=
  match JS.split_lines (JS.trim csv) with
  | _ :: line :: _ => nth_error (JS.split_char "," line) 6
  | _ => None
  end.

(** A value that is no price: missing, not a number, or [NaN]. *)
Definition no_price (v : value) : Prop :=
  forall x, v = VNum x -> is_nan x = true.

(** A JSON source fails: network error, status not ok, malformed payload, or
    no price in the payload. *)
Inductive json_source_fails (price_of : value -> value) : fetch_outcome -> Prop :=
| json_network_error : json_source_fails price_of Rejected
| json_bad_status r : ok r = false -> json_source_fails price_of (Responded r)
| json_malformed r : json r = None -> json_source_fails price_of (Responded r)
| json_no_price r payload :
    json r = Some payload -> no_price (price_of payload) ->
    json_source_fails price_of (Responded r).

(** The CSV source fails: network error, status not ok, no body, or a close
    field that is missing or does not parse to a number. *)
Inductive csv_source_fails : fetch_outcome -> Prop :=
| csv_network_error : csv_source_fails Rejected
| csv_bad_status r : ok r = false -> csv_source_fails (Responded r)
| csv_no_body r : text r = None -> csv_source_fails (Responded r)
| csv_no_close r csv :
    text r = Some csv ->
    (forall field, close_field csv = Some field -> is_nan (JS.parseFloat field) = true) ->
    csv_source_fails (Responded r).

(** The symbol rule as the specification words it: lower-case the ticker;
    append [.us] to a purely alphabetic one; replace a final [-usd] with
    [.v]; leave anything else as it is. *)
Definition purely_alphabetic (s : string) : bool :=
  negb (String.eqb s "") && JS.all_chars JS.is_letter s.

Definition stooq_symbol_spec (ticker : string) : string :=
  let lowered := JS.toLowerCase ticker in
  if purely_alphabetic lowered then lowered ++ ".us"
  else if JS.endsWith "-usd" lowered
       then substring 0 (String.length lowered - 4) lowered ++ ".v"
       else lowered.

(** Two numbers are the same number: equal as [===] has it, or both
    [NaN]. *)
Definition same_number (x y : float) : Prop :=
  (x =? y)%float = true \/ (is_nan x = true /\ is_nan y = true).

(** The numbers of a row are numbers: none is [NaN]. *)
Definition numeric (a : asset) : Prop :=
  is_nan (shares a) = false /\ is_nan (targetPrice a) = false
  /\ (forall p, currentPrice a = Some p -> is_nan p = false).

(** *** Sources and what they yield *)

Inductive source : Type := Quote | Chart | Csv.

(** In the log of a call for [ticker], the source [src] answered with an ok
    status and a well-formed body that carries the price [p]. *)
Definition yields (ticker : string) (log : list exchange) (src : source) (p : float) : Prop :=
  match src with
  | Quote =>
      exists r payload,
        In (quoteRequest ticker, Responded r) log /\ ok r = true
        /\ json r = Some payload /\ quote_payload payload p
  | Chart =>
      exists r payload,
        In (chartRequest ticker, Responded r) log /\ ok r = true
        /\ json r = Some payload /\ chart_payload payload p
  | Csv =>
      exists r csv field,
        In (stooqRequest ticker, Responded r) log /\ ok r = true
        /\ text r = Some csv /\ close_field csv = Some field
        /\ JS.parseFloat field = p
  end.

(** The result of the callback of [assets.map] for one row. *)
Definition result_of (net : Net) (asset : asset) : Result.t :=
  if negb (truthy (ticker asset)) then Result.mk (id asset) None None
  else
    let price := fst (chain (ticker asset) net) in
    Result.mk (id asset) price
      (match price with
       | None => Some "Price unavailable"
       | Some _ => None
       end).

Fixpoint results_from (i : nat) (nets : nat -> Net) (assets : list asset) : list Result.t :=
  match assets with
  | [] => []
  | asset :: rest => result_of (nets i) asset :: results_from (S i) nets rest
  end.

(** ** Sample payloads and oracles *)

Module Sample.

Definition quote_of (price : value) : value :=
  VObj [("quoteResponse",
         VObj [("result", VArr [VObj [("regularMarketPrice", price)]]);
               ("error", VNull)])].

Definition chart_of (price : value) : value :=
  VObj [("chart",
         VObj [("result",
                VArr [VObj [("meta", VObj [("currency", VStr "USD");
                                           ("regularMarketPrice", price)])]]);
               ("error", VNull)])].

Definition csv_of (close : string) : string :=
  "Symbol,Date,Time,Open,High,Low,Close,Volume,Name" ++ String "010" ""
  ++ "AAPL.US,2024-01-02,22:00:00,187.15,188.44,183.89," ++ close
  ++ ",82488674,APPLE" ++ String "010" "".

Definition json_ok (payload : value) : response :=
  {| ok := true; json := Some payload; text := None |}.

Definition text_ok (body : string) : response :=
  {| ok := true; json := None; text := Some body |}.

(** An oracle that answers one address and rejects every other request. *)
Definition only (url : string) (r : response) : Net :=
  fun asked => if String.eqb asked url then Responded r else Rejected.

(** The network is down. *)
Definition down : Net := fun _ => Rejected.

(** Every source answers, none with a price: a 404 from the quote
    endpoint, a body that is not JSON from the chart endpoint, and a CSV
    whose close is [N/D]. *)
Definition no_data : Net :=
  fun asked =>
    if String.eqb asked (quoteRequest "ZZZZ") then
      Responded {| ok := false; json := None; text := None |}
    else if String.eqb asked (chartRequest "ZZZZ") then
      Responded {| ok := true; json := None; text := Some "<html>" |}
    else Responded (text_ok (csv_of "N/D")).

(** A blank row the user has typed a ticker into. *)
Definition typed (i t : string) : asset :=
  {| id := i; ticker := t; shares := 0; currentPrice := None;
     targetPrice := 0; loading := false; error := None |}.

(** A row with its numbers filled in. *)
Definition position (i t : string) (n price target : float) : asset :=
  {| id := i; ticker := t; shares := n; currentPrice := Some price;
     targetPrice := target; loading := false; error := None |}.

End Sample.


(** [currentPrice], or 0 if it is null. *)
Definition price_or_null_zero (p : option float) : float :=
  match p with
  | Some x => x
  | None => 0%float
  end.

(** The two positions of the aggregate example. *)
Definition example_positions : list asset :=
  [Sample.position "r1" "AAPL" 10 100 120; Sample.position "r2" "GOOG" 5 50 40].

(** The same on the specification side of the floats. *)
Definition same_spec (A B : spec_float) : Prop :=
  SFeqb A B = true \/ (A = S754_nan /\ B = S754_nan).

(** What every state reached with ids that are new satisfies: there is a
    row, the ids of the rows are distinct and were all handed out by
    [genId], and the numbers of the rows are numbers. *)
Definition well_formed (s : state) : Prop :=
  assets s <> []
  /\ NoDup (map id (assets s))
  /\ incl (map id (assets s)) (issued s)
  /\ Forall numeric (assets s).



(** The state a list of events leads to from the first render (the first
    render itself when some event cannot happen). *)
Definition outcome (stepper : state -> event -> option state)
    (firstId : string) (events : list event) : state :=
  match run stepper (init firstId) events with
  | Some s => s
  | None => init firstId
  end.

(** ** Sample sessions *)

Module Session.

(** Every call of the round is answered by the quote endpoint for AAPL,
    and by nothing else. *)
Definition aapl_only : nat -> Net :=
  fun _ => Sample.only (quoteRequest "AAPL")
             (Sample.json_ok (Sample.quote_of (VNum 187.5))).

(** The user types AAPL and asks for prices; the round completes. *)
Definition calm : list event :=
  [UpdateTicker "r1" "AAPL"; UpdateShares "r1" "10"; FetchStart;
   FetchDone 0 aapl_only].

(** The user types AAPL and asks for prices, then changes the ticker to
    MSFT before the round completes. *)
Definition race : list event :=
  [UpdateTicker "r1" "AAPL"; FetchStart; UpdateTicker "r1" "MSFT";
   FetchDone 0 aapl_only].

(** The user adds a row and removes the first one. *)
Definition add_remove : list event := [AddRow "r2"; RemoveRow "r1"].

(** The user types ZZZZ and asks for prices. *)
Definition waiting : list event := [UpdateTicker "r1" "ZZZZ"; FetchStart].

(** The user types ZZZZ and asks for prices, then empties the ticker field
    before the round completes. *)
Definition cleared : list event :=
  [UpdateTicker "r1" "ZZZZ"; FetchStart; UpdateTicker "r1" ""].


End Session.


(** ** Formatting numbers *)

Module Format.

(** The decimal digits of an integer, after a minus sign when it is
    negative: what [String(x)] gives for an integer below [1e21] in size. *)
Definition integer_string (z : Z) : string :=
  DecimalString.NilZero.string_of_int (Z.to_int z).

Fixpoint zeros (n : nat) : string :=
  match n with
  | O => EmptyString
  | S n' => String "0" (zeros n')
  end.

(** The digits of [n] with a point before the last [f] of them, zeros
    being put in front when there are too few: steps 10 and 11 of
    [Number.prototype.toFixed]. *)
Definition point (f : nat) (n : Z) : string :=
  let m := integer_string n in
  match f with
  | O => m
  | S _ =>
      let m := if (String.length m <=? f)%nat
               then zeros (f + 1 - String.length m) ++ m else m in
      let k := String.length m in
      substring 0 (k - f) m ++ "." ++ substring (k - f) f m
  end.

(** Drops the zeros at the end of a digit string. *)
Fixpoint strip_zeros (s : string) : string :=
  match s with
  | EmptyString => EmptyString
  | String c r =>
      match strip_zeros r with
      | EmptyString => if Ascii.eqb c "0" then EmptyString else String c EmptyString
      | r' => String c r'
      end
  end.

(** Whether [s * 10 ^ e10] is a decimal for the number [x]. *)
Definition reads_as (x : float) (s e10 : Z) : bool :=
  (JS.decimal_to_float false (Z.to_N s) e10 =? x)%float.

(** The [k]-digit decimal for [x], whose exact value is the integer [X] of
    [D] digits, if there is one: the nearer of the two [k]-digit neighbours
    of [X] that read as [x], the even one on a tie. *)
Definition candidate (x : float) (X D k : Z) : option Z :=
  let scale := (10 ^ (D - k))%Z in
  let lo := (X / scale)%Z in
  let hi := (lo + 1)%Z in
  match reads_as x lo (D - k), reads_as x hi (D - k) with
  | true, true =>
      let below := (X - lo * scale)%Z in
      let above := (hi * scale - X)%Z in
      Some (if (below <? above)%Z then lo
            else if (above <? below)%Z then hi
            else if Z.even lo then lo else hi)
  | true, false => Some lo
  | false, true => Some hi
  | false, false => None
  end.

(** The shortest decimal for [x]: the digits, and how many were asked for.
    Seventeen digits always suffice. *)
Fixpoint shortest_from (fuel : nat) (x : float) (X D k : Z) : Z * Z :=
  match fuel with
  | O => (X, D)
  | S fuel' =>
      match candidate x X D k with
      | Some s => (s, k)
      | None => shortest_from fuel' x X D (k + 1)
      end
  end.

(** [String(x)] for a number [x >= 1e21], whose exact value is the integer
    [X]: the shortest digits that read as [x], in exponent form. *)
Definition exponent_form (x : float) (X : Z) : string :=
  let D := Z.of_nat (String.length (integer_string X)) in
  let '(s, k) := shortest_from 17 x X D 1 in
  let all := integer_string s in
  let n := (D + (Z.of_nat (String.length all) - k))%Z in
  match strip_zeros all with
  | String d EmptyString => String d ("e+" ++ integer_string (n - 1))
  | String d rest => String d ("." ++ rest ++ "e+" ++ integer_string (n - 1))
  | EmptyString => "0"
  end.

(** [x.toFixed(f)] *)
Definition toFixed (x : float) (f : nat) : string :=
  match Prim2SF x with
  | S754_nan => "NaN"
  | S754_infinity s => if s then "-Infinity" else "Infinity"
  | S754_zero _ => point f 0
  | S754_finite s m e =>
      let num := if (0 <=? e)%Z then (Zpos m * 2 ^ e)%Z else Zpos m in
      let den := if (0 <=? e)%Z then 1%Z else (2 ^ (- e))%Z in
      let sign := if s then "-" else "" in
      if (10 ^ 21 * den <=? num)%Z then sign ++ exponent_form (abs x) (num / den)
      else sign ++ point f ((2 * num * 10 ^ Z.of_nat f + den) / (2 * den))
  end.

(** [String(Math.floor(x))] *)
Definition floor_string (x : float) : string :=
  match Prim2SF x with
  | S754_nan => "NaN"
  | S754_infinity s => if s then "-Infinity" else "Infinity"
  | S754_zero _ => "0"
  | S754_finite s m e =>
      let v := if s then Zneg m else Zpos m in
      let z := if (0 <=? e)%Z then (v * 2 ^ e)%Z else (v / 2 ^ (- e))%Z in
      if (10 ^ 21 <=? Z.abs z)%Z
      then (if s then "-" else "") ++ exponent_form (abs x) (Z.abs z)
      else integer_string z
  end.

(** The integer [Math.floor(x)] is, for a finite [x]. *)
Definition floor (x : float) : option Z :=
  match Prim2SF x with
  | S754_zero _ => Some 0%Z
  | S754_finite s m e =>
      let v := if s then Zneg m else Zpos m in
      Some (if (0 <=? e)%Z then (v * 2 ^ e)%Z else (v / 2 ^ (- e))%Z)
  | _ => None
  end.

End Format.

(** ** Row ids *)

(** [genId()], from what [Date.now()] and [Math.random()] return. *)
Definition genId (now : Z) (random : float) : string :=
  Format.integer_string now ++ "-" ++ Format.floor_string (random * 100000).

(** A session in which [genId] returns the same id twice: the user presses
    the add button twice within one millisecond, the two draws of
    [Math.random] having the same first five decimals, and then removes the
    first row and one of the new ones. *)
Module Collision.

Definition first : string := genId 1730500000000 0.25.

Definition second : string := genId 1730500000777 0.5.

Definition third : string := genId 1730500000777 0.500003814697265625.

Definition events : list event :=
  [AddRow second; AddRow third; RemoveRow first; RemoveRow second].

End Collision.

(** ** What is shown *)

(** The current-price cell of a row of the input table. *)
Inductive cell : Type :=
| Loading
| Failed (message : string)
| Price (text : string)
| Dash.

Definition priceCell (row : asset) : cell :=
  if loading row then Loading
  else
    match error row with
    | Some message =>
        if truthy message then Failed message
        else match currentPrice row with
             | Some p => Price ("$" ++ Format.toFixed p 2)
             | None => Dash
             end
    | None =>
        match currentPrice row with
        | Some p => Price ("$" ++ Format.toFixed p 2)
        | None => Dash
        end
    end.

(** The bars of the chart. *)
Module Chart.
Record bar : Type := mk {
  name : string;
  Current : float;
  Target : float;
  ReturnPct : option float
}.
End Chart.

Definition charted (r : asset * figures) : bool :=
  truthy (ticker (fst r))
  && (0 <? currentValue (snd r))%float
  && (0 <? targetValue (snd r))%float.

(** [toUpperCase] stands for [String.prototype.toUpperCase], which the chart
    applies to the ticker of a bar. *)
Definition chartData (toUpperCase : string -> string) (assets : list asset)
  : list Chart.bar :=
  map (fun r =>
         {| Chart.name := toUpperCase (ticker (fst r));
            Chart.Current := JS.parseFloat (Format.toFixed (currentValue (snd r)) 2);
            Chart.Target := JS.parseFloat (Format.toFixed (targetValue (snd r)) 2);
            Chart.ReturnPct :=
              match returnPct (snd r) with
              | Some p => Some (JS.parseFloat (Format.toFixed p 2))
              | None => None
              end |})
      (filter charted (rows assets)).

(** ** Reading percent-encoding back *)

Definition hex_value (c : ascii) : N :=
  if JS.is_digit c then (JS.code c - 48)%N else (JS.code c - 55)%N.

(** The character whose escape is [%hl]. *)
Definition unescape (h l : ascii) : ascii :=
  ascii_of_N (16 * hex_value h + hex_value l).

(** ** What the flags of a row say *)

(** The error of a row is null or the one message of [fetchAllPrices], and
    then there is no price; a row that is loading has a ticker, no price and
    no error. *)
Definition coherent (a : asset) : Prop :=
  (error a = None \/ (error a = Some "Price unavailable" /\ currentPrice a = None))
  /\ (loading a = true ->
      ticker a <> "" /\ currentPrice a = None /\ error a = None).

(** A row with the same fields but for [loading], which is off. *)
Definition settled (a : asset) : asset :=
  {| id := id a; ticker := ticker a; shares := shares a;
     currentPrice := currentPrice a; targetPrice := targetPrice a;
     loading := false; error := error a |}.

(** No row is loading unless a round is in flight. *)
Definition loading_means_inflight (s : state) : Prop :=
  (exists a, In a (assets s) /\ loading a = true) -> inflight s <> [].

(** A number that is a zero or NaN, on the specification side of the
    floats. *)
Definition zero_or_nan (X : spec_float) : Prop :=
  match X with
  | S754_zero _ | S754_nan => True
  | _ => False
  end.

(** * Properties *)

Lemma tryQuote_run ticker net log :
  tryQuote ticker net log
  = (Normal (quote_result (net (quoteRequest ticker))),
     (log ++ [asked net (quoteRequest ticker)])%list).
Proof.
  unfold tryQuote, try_catch, bind, fetch, quote_result, asked, quoteRequest.
  destruct (net (proxied (quoteEndpoint ticker))) as [|r]; [reflexivity|].
  destruct (ok r); [|reflexivity].
  unfold await_json, await_option, ret. destruct (json r); reflexivity.
Qed.

Lemma tryChart_run ticker net log :
  tryChart ticker net log
  = (Normal (chart_result (net (chartRequest ticker))),
     (log ++ [asked net (chartRequest ticker)])%list).
Proof.
  unfold tryChart, try_catch, bind, fetch, chart_result, asked, chartRequest.
  destruct (net (proxied (chartEndpoint ticker))) as [|r]; [reflexivity|].
  destruct (ok r); [|reflexivity].
  unfold await_json, await_option, ret. destruct (json r); reflexivity.
Qed.

Lemma tryStooq_run symbol net log :
  tryStooq symbol net log
  = (Normal (stooq_result (net (proxied (stooqUrl symbol)))),
     (log ++ [asked net (proxied (stooqUrl symbol))])%list).
Proof.
  unfold tryStooq, try_catch, bind, fetch, stooq_result, asked.
  destruct (net (proxied (stooqUrl symbol))) as [|r]; [reflexivity|].
  destruct (ok r); [|reflexivity].
  unfold await_text, await_option, ret. destruct (text r); reflexivity.
Qed.

Lemma fetchCurrentPrice_run ticker net log :
  fetchCurrentPrice ticker net log
  = (Normal (fst (chain ticker net)), (log ++ snd (chain ticker net))%list).
Proof.
  unfold fetchCurrentPrice, chain.
  destruct (String.eqb ticker "").
  - unfold ret. now rewrite app_nil_r.
  - unfold bind at 1. rewrite tryQuote_run.
    destruct (quote_result (net (quoteRequest ticker))) as [p|]; [reflexivity|].
    unfold bind at 1. rewrite tryChart_run.
    destruct (chart_result (net (chartRequest ticker))) as [p|].
    + unfold ret. cbn [fst snd]. now rewrite <- app_assoc.
    + unfold bind at 1. rewrite tryStooq_run. unfold stooqRequest.
      destruct (stooq_result _); unfold ret; cbn [fst snd];
        now rewrite <- !app_assoc.
Qed.

(** The three requests of one call go to three different addresses. *)
Lemma quote_chart_distinct t t' : quoteRequest t <> chartRequest t'.
Proof. unfold quoteRequest, chartRequest, proxied, quoteEndpoint, chartEndpoint. cbn. discriminate. Qed.

Lemma quote_stooq_distinct t sym : quoteRequest t <> proxied (stooqUrl sym).
Proof. unfold quoteRequest, proxied, quoteEndpoint, stooqUrl. cbn. discriminate. Qed.

Lemma chart_stooq_distinct t sym : chartRequest t <> proxied (stooqUrl sym).
Proof. unfold chartRequest, proxied, chartEndpoint, stooqUrl. cbn. discriminate. Qed.

(** *** Payloads and failures, read by the code *)

Lemma quote_payload_price payload p :
  quote_payload payload p -> Value.valid_price (quote_price payload) = Some p.
Proof.
  intros H; inversion H as [top inner fields more q Hq Hr [Hp Hn]
                           |top inner fields more q Hq Hr Ha [Hp Hn]]; subst;
    unfold quote_price, Value.opt_get, Value.opt_first, Value.coalesce, Value.get;
    cbn [Value.nullish]; rewrite Hq; cbn [Value.nullish]; rewrite Hr;
    cbn [Value.nullish].
  - rewrite Hp. cbn. unfold JS.isNaN. now rewrite Hn.
  - unfold absent in Ha. rewrite Ha, Hp. cbn. unfold JS.isNaN. now rewrite Hn.
Qed.

Lemma chart_payload_price payload p :
  chart_payload payload p -> Value.valid_price (chart_price payload) = Some p.
Proof.
  intros H; inversion H as [top inner first more fields q Hc Hr Hm [Hp Hn]
                           |top inner first more fields q Hc Hr Hm Ha [Hp Hn]]; subst;
    unfold chart_price, Value.opt_get, Value.opt_first, Value.coalesce, Value.get;
    cbn [Value.nullish]; rewrite Hc; cbn [Value.nullish]; rewrite Hr;
    cbn [Value.nullish]; rewrite Hm; cbn [Value.nullish].
  - rewrite Hp. cbn. unfold JS.isNaN. now rewrite Hn.
  - unfold absent in Ha. rewrite Ha, Hp. cbn. unfold JS.isNaN. now rewrite Hn.
Qed.

Lemma csv_close_field csv :
  csv_close csv
  = match close_field csv with
    | Some field => if is_nan (JS.parseFloat field) then None else Some (JS.parseFloat field)
    | None => None
    end.
Proof.
  unfold csv_close, close_field, JS.parseFloat_at, JS.isNaN.
  destruct (JS.split_lines (JS.trim csv)) as [|l0 [|l1 rest]];
    cbn [List.length Nat.ltb Nat.leb nth]; try reflexivity.
  destruct (nth_error (JS.split_char "," l1) 6); reflexivity.
Qed.

Lemma no_price_invalid v : no_price v -> Value.valid_price v = None.
Proof.
  unfold no_price, Value.valid_price, JS.isNaN. intros H.
  destruct v; try reflexivity. now rewrite (H x eq_refl).
Qed.

Lemma quote_fails_result o : json_source_fails quote_price o -> quote_result o = None.
Proof.
  intros [|r H|r H|r d H Hn]; cbn; try reflexivity.
  - now rewrite H.
  - rewrite H. now destruct (ok r).
  - rewrite H, (no_price_invalid _ Hn). now destruct (ok r).
Qed.

Lemma chart_fails_result o : json_source_fails chart_price o -> chart_result o = None.
Proof.
  intros [|r H|r H|r d H Hn]; cbn; try reflexivity.
  - now rewrite H.
  - rewrite H. now destruct (ok r).
  - rewrite H, (no_price_invalid _ Hn). now destruct (ok r).
Qed.

Lemma stooq_fails_result o : csv_source_fails o -> stooq_result o = None.
Proof.
  intros [|r H|r H|r csv H Hn]; cbn; try reflexivity.
  - now rewrite H.
  - rewrite H. now destruct (ok r).
  - rewrite H, csv_close_field. destruct (ok r); [|reflexivity].
    destruct (close_field csv) as [f|]; [|reflexivity]. now rewrite (Hn f eq_refl).
Qed.

(** *** The log of a call *)

(** Every exchange in the log is a request with what the oracle answered. *)
Lemma chain_log_answers ticker net e :
  In e (snd (chain ticker net)) -> snd e = net (fst e).
Proof.
  unfold chain, asked. destruct (String.eqb ticker ""); [intros []|].
  destruct (quote_result _); [|destruct (chart_result _)]; cbn;
    intuition (subst; reflexivity).
Qed.

(** A call that asked anything was given a ticker, and asked the quote
    endpoint first. *)
Lemma chain_log_nonempty ticker net e :
  In e (snd (chain ticker net)) -> String.eqb ticker "" = false.
Proof.
  unfold chain. destruct (String.eqb ticker ""); [intros []|reflexivity].
Qed.

Lemma chain_asked_chart ticker net o :
  In (chartRequest ticker, o) (snd (chain ticker net)) ->
  String.eqb ticker "" = false /\ quote_result (net (quoteRequest ticker)) = None.
Proof.
  intros H. pose proof (chain_log_nonempty _ _ _ H) as Ht. split; [exact Ht|].
  revert H. unfold chain, asked. rewrite Ht.
  destruct (quote_result _); [|reflexivity].
  cbn [snd In]. intros [E|[]]. apply (f_equal fst) in E; cbn [fst] in E; rename E into E'.
  now apply quote_chart_distinct in E'.
Qed.

Lemma chain_asked_stooq ticker net o :
  In (stooqRequest ticker, o) (snd (chain ticker net)) ->
  String.eqb ticker "" = false /\ quote_result (net (quoteRequest ticker)) = None
  /\ chart_result (net (chartRequest ticker)) = None.
Proof.
  intros H. pose proof (chain_log_nonempty _ _ _ H) as Ht. split; [exact Ht|].
  revert H. unfold chain, asked. rewrite Ht.
  destruct (quote_result _).
  - cbn [snd In]. intros [E|[]]. apply (f_equal fst) in E; cbn [fst] in E; rename E into E'.
    now apply quote_stooq_distinct in E'.
  - destruct (chart_result _); [|now split].
    cbn [snd In]. intros [E|[E|[]]]; apply (f_equal fst) in E; cbn [fst] in E; rename E into E'.
    + now apply quote_stooq_distinct in E'.
    + now apply chart_stooq_distinct in E'.
Qed.

(** A call with a ticker asks the quote endpoint first. *)
Lemma chain_asks_quote ticker net :
  String.eqb ticker "" = false ->
  In (asked net (quoteRequest ticker)) (snd (chain ticker net)).
Proof.
  intros Ht. unfold chain. rewrite Ht.
  destruct (quote_result _); [|destruct (chart_result _)]; now left.
Qed.

(** C1. For every ticker string: when the quote endpoint (the primary
    source) answers with an ok status and a payload whose first result
    carries a number that is not NaN as [regularMarketPrice] (or, that field
    being absent, as [regularMarketPreviousClose]), [fetchCurrentPrice]
    returns exactly that number, and the quote request is the only request
    of the call: none goes to the chart endpoint or to the CSV source. *)
Theorem primary_price_wins ticker net r payload p :
  In (quoteRequest ticker, Responded r) (snd (fetchCurrentPrice ticker net [])) ->
  ok r = true ->
  json r = Some payload ->
  quote_payload payload p ->
  fetchCurrentPrice ticker net []
  = (Normal (Some p), [(quoteRequest ticker, Responded r)])
  /\ (forall e, In e (snd (fetchCurrentPrice ticker net [])) ->
        fst e <> chartRequest ticker /\ fst e <> stooqRequest ticker).
Proof.
  rewrite fetchCurrentPrice_run. cbn [snd app]. intros Hin Hok Hjson Hp.
  pose proof (chain_log_nonempty _ _ _ Hin) as Ht.
  pose proof (chain_log_answers _ _ _ Hin) as Hnet. cbn [fst snd] in Hnet.
  assert (Hq : quote_result (net (quoteRequest ticker)) = Some p).
  { rewrite <- Hnet. cbn. rewrite Hok, Hjson. now apply quote_payload_price. }
  assert (Hc : chain ticker net = (Some p, [(quoteRequest ticker, Responded r)])).
  { unfold chain, asked. now rewrite Ht, Hq, <- Hnet. }
  rewrite Hc. cbn [fst snd]. split; [reflexivity|].
  intros e [<-|[]]. cbn [fst]. split.
  - apply quote_chart_distinct.
  - apply quote_stooq_distinct.
Qed.

Lemma primary_price_wins_witness :
  fetchCurrentPrice "AAPL"
    (Sample.only (quoteRequest "AAPL") (Sample.json_ok (Sample.quote_of (VNum 187.5)))) []
  = (Normal (Some 187.5%float),
     [(quoteRequest "AAPL", Responded (Sample.json_ok (Sample.quote_of (VNum 187.5))))])
  /\ (forall e,
        In e (snd (fetchCurrentPrice "AAPL"
                     (Sample.only (quoteRequest "AAPL")
                        (Sample.json_ok (Sample.quote_of (VNum 187.5)))) [])) ->
        fst e <> chartRequest "AAPL" /\ fst e <> stooqRequest "AAPL").
Proof.
  apply (primary_price_wins "AAPL" _ _ (Sample.quote_of (VNum 187.5)) 187.5%float).
  - vm_compute. left. reflexivity.
  - reflexivity.
  - reflexivity.
  - eapply quote_market; [reflexivity | reflexivity | split; reflexivity].
Defined.

(** *** The symbol sent to the CSV source *)

Lemma test_letters_alphabetic s : JS.test_letters s = purely_alphabetic s.
Proof. destruct s; reflexivity. Qed.

Lemma stooqSymbol_spec ticker : stooqSymbol ticker = stooq_symbol_spec ticker.
Proof.
  unfold stooqSymbol, stooq_symbol_spec, JS.replace_suffix.
  rewrite test_letters_alphabetic.
  destruct (purely_alphabetic _); [reflexivity|].
  destruct (JS.endsWith "-usd" _); reflexivity.
Qed.

(** C3. For every ticker string, the symbol in the request to the CSV
    source (the third request of a call, when there is one) is: the ticker in
    lower case, with [.us] appended when that is purely alphabetic, else with
    a final [-usd] replaced by [.v], else as it is. [AAPL] gives [aapl.us],
    [BTC-USD] gives [btc.v] and [XYZ123] gives [xyz123]. *)
Theorem stooq_symbol_rule ticker :
  stooqSymbol ticker = stooq_symbol_spec ticker
  /\ (forall net e,
        nth_error (snd (fetchCurrentPrice ticker net [])) 2 = Some e ->
        fst e = proxied (stooqUrl (stooq_symbol_spec ticker)))
  /\ stooqSymbol "AAPL" = "aapl.us"
  /\ stooqSymbol "BTC-USD" = "btc.v"
  /\ stooqSymbol "XYZ123" = "xyz123".
Proof.
  split; [apply stooqSymbol_spec|]. split; [|repeat split; reflexivity].
  intros net e. rewrite fetchCurrentPrice_run. cbn [snd app].
  unfold chain, asked, stooqRequest. rewrite stooqSymbol_spec.
  destruct (String.eqb ticker ""); [discriminate|].
  destruct (quote_result _); [discriminate|].
  destruct (chart_result _); [discriminate|].
  cbn [snd nth_error]. intros [= <-]. reflexivity.
Qed.

Lemma stooq_symbol_rule_witness :
  fst (proxied (stooqUrl "btc.v"), Rejected)
  = proxied (stooqUrl (stooq_symbol_spec "BTC-USD")).
Proof.
  destruct (stooq_symbol_rule "BTC-USD") as (_ & H & _).
  apply (H Sample.down (proxied (stooqUrl "btc.v"), Rejected)).
  reflexivity.
Defined.

(** *** A price of zero *)

Lemma chain_yields ticker net src p :
  is_nan p = false ->
  yields ticker (snd (chain ticker net)) src p ->
  fst (chain ticker net) = Some p.
Proof.
  intros Hn. destruct src; cbn [yields].
  - intros (r & d & Hin & Hok & Hj & Hp).
    pose proof (chain_log_nonempty _ _ _ Hin) as Ht.
    pose proof (chain_log_answers _ _ _ Hin) as Hnet. cbn [fst snd] in Hnet.
    unfold chain. rewrite Ht, <- Hnet. cbn [quote_result].
    now rewrite Hok, Hj, (quote_payload_price _ _ Hp).
  - intros (r & d & Hin & Hok & Hj & Hp).
    destruct (chain_asked_chart _ _ _ Hin) as [Ht Hq].
    pose proof (chain_log_answers _ _ _ Hin) as Hnet. cbn [fst snd] in Hnet.
    unfold chain. rewrite Ht, Hq, <- Hnet. cbn [chart_result].
    now rewrite Hok, Hj, (chart_payload_price _ _ Hp).
  - intros (r & csv & field & Hin & Hok & Hx & Hf & Hp).
    destruct (chain_asked_stooq _ _ _ Hin) as (Ht & Hq & Hc).
    pose proof (chain_log_answers _ _ _ Hin) as Hnet. cbn [fst snd] in Hnet.
    unfold chain. rewrite Ht, Hq, Hc, <- Hnet. cbn [fst stooq_result].
    now rewrite Hok, Hx, csv_close_field, Hf, Hp, Hn.
Qed.

Lemma invalid_no_price v : Value.valid_price v = None -> no_price v.
Proof.
  unfold Value.valid_price, JS.isNaN, no_price. intros H x ->.
  destruct (is_nan x); [reflexivity|discriminate].
Qed.

(** C4. For every ticker: when one of the three sources yields the price
    0 (the number 0 in the price field of a JSON payload, or a CSV close
    field that parses to 0), [fetchCurrentPrice] returns 0; a step gives up
    on a value only when it is missing, not a number, or NaN. *)
Theorem zero_is_a_price ticker net src :
  yields ticker (snd (fetchCurrentPrice ticker net [])) src 0%float ->
  fst (fetchCurrentPrice ticker net []) = Normal (Some 0%float)
  /\ (forall v, Value.valid_price v = None <-> no_price v)
  /\ (forall csv, csv_close csv = None <->
        forall field, close_field csv = Some field -> is_nan (JS.parseFloat field) = true).
Proof.
  rewrite fetchCurrentPrice_run. cbn [fst snd app]. intros H.
  split; [|split].
  - now rewrite (chain_yields _ _ _ 0%float eq_refl H).
  - intros v. split; [apply invalid_no_price|apply no_price_invalid].
  - intros csv. rewrite csv_close_field. destruct (close_field csv) as [f|].
    + split.
      * intros Hc field [= <-]. now destruct (is_nan (JS.parseFloat f)).
      * intros Hc. now rewrite (Hc f eq_refl).
    + split; [intros _ field; discriminate|reflexivity].
Qed.

Lemma zero_is_a_price_witness :
  (fst (fetchCurrentPrice "AAPL"
          (Sample.only (quoteRequest "AAPL") (Sample.json_ok (Sample.quote_of (VNum 0)))) [])
   = Normal (Some 0%float))
  /\ (fst (fetchCurrentPrice "AAPL"
             (Sample.only (chartRequest "AAPL") (Sample.json_ok (Sample.chart_of (VNum 0)))) [])
      = Normal (Some 0%float))
  /\ (fst (fetchCurrentPrice "AAPL"
             (Sample.only (stooqRequest "AAPL") (Sample.text_ok (Sample.csv_of "0"))) [])
      = Normal (Some 0%float)).
Proof.
  split; [|split].
  - apply (zero_is_a_price "AAPL" _ Quote).
    exists (Sample.json_ok (Sample.quote_of (VNum 0))), (Sample.quote_of (VNum 0)).
    split; [vm_compute; left; reflexivity|].
    repeat split.
    eapply quote_market; [reflexivity | reflexivity | split; reflexivity].
  - apply (zero_is_a_price "AAPL" _ Chart).
    exists (Sample.json_ok (Sample.chart_of (VNum 0))), (Sample.chart_of (VNum 0)).
    split; [vm_compute; right; left; reflexivity|].
    repeat split.
    eapply chart_market; [reflexivity | reflexivity | reflexivity | split; reflexivity].
  - apply (zero_is_a_price "AAPL" _ Csv).
    exists (Sample.text_ok (Sample.csv_of "0")), (Sample.csv_of "0"), "0".
    split; [vm_compute; right; right; left; reflexivity|].
    repeat split.
Defined.

(** *** A round of [fetchAllPrices] *)

Lemma fetchOne_run asset net log :
  fst (fetchOne asset net log) = Normal (result_of net asset).
Proof.
  unfold fetchOne, result_of. destruct (negb (truthy (ticker asset))); [reflexivity|].
  unfold bind. now rewrite fetchCurrentPrice_run.
Qed.

Lemma fetchResults_from_run i nets assets :
  fetchResults_from i nets assets = Normal (results_from i nets assets).
Proof.
  revert i. induction assets as [|a rest IH]; intros i; [reflexivity|].
  cbn [fetchResults_from results_from]. now rewrite fetchOne_run, IH.
Qed.

Lemma fetchResults_run nets assets :
  fetchResults nets assets = Normal (results_from 0 nets assets).
Proof. apply fetchResults_from_run. Qed.

Lemma result_of_id net asset : Result.id (result_of net asset) = id asset.
Proof. unfold result_of. now destruct (negb (truthy (ticker asset))). Qed.

(** With distinct ids, the result a row finds is the one computed for it. *)
Lemma find_own_result nets assets :
  NoDup (map id assets) ->
  forall i k a,
    nth_error assets k = Some a ->
    find (fun r => String.eqb (Result.id r) (id a)) (results_from i nets assets)
    = Some (result_of (nets (i + k)) a).
Proof.
  induction assets as [|h rest IH]; intros Hnd i k a Hk.
  - now destruct k.
  - cbn [map] in Hnd. inversion Hnd as [|x l Hnotin Hnd']; subst.
    cbn [results_from find]. rewrite result_of_id. destruct k as [|k'].
    + injection Hk as ->. now rewrite String.eqb_refl, Nat.add_0_r.
    + cbn [nth_error] in Hk.
      destruct (String.eqb_spec (id h) (id a)) as [E|_].
      * exfalso. apply Hnotin. rewrite E. apply in_map. eapply nth_error_In, Hk.
      * rewrite (IH Hnd' (S i) k' a Hk). f_equal. f_equal. f_equal. lia.
Qed.

(** C2, as stated, fails in its last part: the user types ZZZZ, starts a
    round, and empties the ticker field while the round is in flight. The
    call for ZZZZ returns null, but the last state update of the round skips
    a row that has no ticker: the row, found by its id, gets no error. *)
Lemma cleared_ticker_gets_no_error :
  ~ (forall s k nets snapshot i old s' row,
       reachable s ->
       nth_error (inflight s) k = Some snapshot ->
       nth_error snapshot i = Some old ->
       ticker old <> "" ->
       fst (fetchCurrentPrice (ticker old) (nets i) []) = Normal None ->
       step s (FetchDone k nets) = Some s' ->
       In row (assets s') ->
       id row = id old ->
       error row = Some "Price unavailable").
Proof.
  intros H.
  assert (E : error (blank "r1") = Some "Price unavailable").
  { apply (H (outcome step "r1" Session.cleared) 0%nat (fun _ => Sample.down)
             [Sample.typed "r1" "ZZZZ"] 0%nat (Sample.typed "r1" "ZZZZ")
             (outcome step "r1" (Session.cleared ++ [FetchDone 0 (fun _ => Sample.down)]))
             (blank "r1")).
    - exists "r1", Session.cleared. reflexivity.
    - reflexivity.
    - reflexivity.
    - discriminate.
    - reflexivity.
    - reflexivity.
    - vm_compute. left. reflexivity.
    - reflexivity. }
  discriminate E.
Qed.

(** C2, amended. For every ticker and every oracle, [fetchCurrentPrice]
    completes without throwing; when all three sources fail (network error,
    status not ok, malformed body, or a price that is missing or NaN, at each
    step) it returns null. When a round of [fetchAllPrices] ends, a row that
    has a ticker then, and whose id is that of one row among the distinct-id
    rows the round was started on, takes the result of the call made for that
    row: a null result gives it the error "Price unavailable" and no price, a
    number becomes its [currentPrice] and clears the error. A row that has no
    ticker then keeps its price and its error; only [loading] is turned
    off. *)
Theorem failure_is_null_or_skipped :
  (forall ticker net log,
      exists price, fst (fetchCurrentPrice ticker net log) = Normal price)
  /\ (forall ticker net,
        json_source_fails quote_price (net (quoteRequest ticker)) ->
        json_source_fails chart_price (net (chartRequest ticker)) ->
        csv_source_fails (net (stooqRequest ticker)) ->
        fst (fetchCurrentPrice ticker net []) = Normal None)
  /\ (forall s k nets snapshot i old j row s' price,
        nth_error (inflight s) k = Some snapshot ->
        NoDup (map id snapshot) ->
        nth_error snapshot i = Some old ->
        ticker old <> "" ->
        fst (fetchCurrentPrice (ticker old) (nets i) []) = Normal price ->
        nth_error (assets s) j = Some row ->
        id row = id old ->
        ticker row <> "" ->
        step s (FetchDone k nets) = Some s' ->
        nth_error (assets s') j
        = Some {| id := id row; ticker := ticker row; shares := shares row;
                  currentPrice := price; targetPrice := targetPrice row;
                  loading := false;
                  error := match price with
                           | None => Some "Price unavailable"
                           | Some _ => None
                           end |})
  /\ (forall s k nets j row s',
        nth_error (assets s) j = Some row ->
        ticker row = "" ->
        step s (FetchDone k nets) = Some s' ->
        nth_error (assets s') j = Some (settled row)).
Proof.
  split; [|split; [|split]].
  - intros ticker net log. rewrite fetchCurrentPrice_run. now eexists.
  - intros ticker net Hq Hc Hs. rewrite fetchCurrentPrice_run. cbn [fst].
    unfold chain. destruct (String.eqb ticker ""); [reflexivity|].
    rewrite (quote_fails_result _ Hq), (chart_fails_result _ Hc).
    cbn [fst]. now rewrite (stooq_fails_result _ Hs).
  - intros s k nets snapshot i old j row s' price Hk Hnd Hi Hto Hp Hj Hid Htr Hstep.
    rewrite fetchCurrentPrice_run in Hp. cbn [fst] in Hp. injection Hp as Hp.
    cbn [step] in Hstep. rewrite Hk, fetchResults_run in Hstep.
    injection Hstep as <-. cbn [assets].
    unfold applyResults. rewrite nth_error_map, Hj. cbn [option_map]. f_equal.
    rewrite Hid, (find_own_result nets snapshot Hnd 0 i old Hi). cbn [Nat.add].
    assert (Et : truthy (ticker row) = true).
    { unfold truthy. now destruct (String.eqb_spec (ticker row) ""). }
    assert (Eo : truthy (ticker old) = true).
    { unfold truthy. now destruct (String.eqb_spec (ticker old) ""). }
    rewrite Et. cbn [negb]. unfold result_of. rewrite Eo.
    cbn [negb Result.price Result.error]. now rewrite Hp.
  - intros s k nets j row s' Hj Ht Hstep. cbn [step] in Hstep.
    destruct (nth_error (inflight s) k) as [snapshot|]; [|discriminate].
    rewrite fetchResults_run in Hstep. injection Hstep as <-. cbn [assets].
    unfold applyResults. rewrite nth_error_map, Hj. cbn [option_map]. f_equal.
    unfold truthy, settled. rewrite Ht. cbn [String.eqb negb].
    now destruct (find _ _).
Qed.

Lemma failure_is_null_or_skipped_witness :
  fst (fetchCurrentPrice "ZZZZ" Sample.no_data []) = Normal None
  /\ nth_error
       (assets (outcome step "r1"
                  (Session.waiting ++ [FetchDone 0 (fun _ => Sample.no_data)]))) 0
     = Some {| id := "r1"; ticker := "ZZZZ"; shares := 0; currentPrice := None;
               targetPrice := 0; loading := false;
               error := Some "Price unavailable" |}
  /\ nth_error
       (assets (outcome step "r1"
                  (Session.cleared ++ [FetchDone 0 (fun _ => Sample.no_data)]))) 0
     = Some (settled (blank "r1")).
Proof.
  destruct failure_is_null_or_skipped as (_ & Hnull & Htaken & Hskipped).
  split; [|split].
  - apply Hnull.
    + apply json_bad_status. reflexivity.
    + apply json_malformed. reflexivity.
    + eapply csv_no_close; [reflexivity|].
      intros field [= <-]. reflexivity.
  - apply (Htaken (outcome step "r1" Session.waiting) 0%nat (fun _ => Sample.no_data)
             [Sample.typed "r1" "ZZZZ"] 0%nat (Sample.typed "r1" "ZZZZ") 0%nat
             {| id := "r1"; ticker := "ZZZZ"; shares := 0; currentPrice := None;
                targetPrice := 0; loading := true; error := None |}
             _ None).
    + reflexivity.
    + repeat constructor. intros [].
    + reflexivity.
    + discriminate.
    + reflexivity.
    + reflexivity.
    + reflexivity.
    + discriminate.
    + reflexivity.
  - apply (Hskipped (outcome step "r1" Session.cleared) 0%nat
             (fun _ => Sample.no_data) 0%nat (blank "r1")).
    + reflexivity.
    + reflexivity.
    + reflexivity.
Defined.

(** *** Editing a row *)

(** C6. For every row list, id and new ticker value, [updateTicker] keeps
    the number and order of the rows; a row with that id gets the new
    ticker, a null [currentPrice], [loading] false and a null [error], and
    keeps its id, [shares] and [targetPrice]; a row with another id is left
    as it was. *)
Theorem updateTicker_frame prev id0 value :
  List.length (updateTicker id0 value prev) = List.length prev
  /\ forall i a,
       nth_error prev i = Some a ->
       (id a = id0 ->
        nth_error (updateTicker id0 value prev) i
        = Some {| id := id a; ticker := value; shares := shares a;
                  currentPrice := None; targetPrice := targetPrice a;
                  loading := false; error := None |})
       /\ (id a <> id0 -> nth_error (updateTicker id0 value prev) i = Some a).
Proof.
  unfold updateTicker. split; [apply length_map|].
  intros i a Hi. rewrite nth_error_map, Hi. cbn [option_map].
  destruct (String.eqb_spec (id a) id0); split; intros; congruence.
Qed.

Lemma updateTicker_frame_witness :
  nth_error (updateTicker "r1" "MSFT"
               [Sample.position "r1" "AAPL" 10 100 120;
                Sample.position "r2" "GOOG" 5 50 40]) 0
  = Some {| id := "r1"; ticker := "MSFT"; shares := 10; currentPrice := None;
            targetPrice := 120; loading := false; error := None |}
  /\ nth_error (updateTicker "r1" "MSFT"
                  [Sample.position "r1" "AAPL" 10 100 120;
                   Sample.position "r2" "GOOG" 5 50 40]) 1
     = Some (Sample.position "r2" "GOOG" 5 50 40).
Proof.
  destruct (updateTicker_frame
              [Sample.position "r1" "AAPL" 10 100 120;
               Sample.position "r2" "GOOG" 5 50 40] "r1" "MSFT") as [_ H].
  split.
  - apply (H 0%nat (Sample.position "r1" "AAPL" 10 100 120) eq_refl). reflexivity.
  - apply (H 1%nat (Sample.position "r2" "GOOG" 5 50 40) eq_refl). discriminate.
Defined.

(** What [updateShares] and [updateTarget] store is never NaN, and is 0 for
    an input that does not parse. *)
Lemma coerce_not_nan parsed : is_nan (coerce parsed) = false.
Proof.
  unfold coerce, JS.isNaN. destruct (is_nan parsed) eqn:E; [reflexivity|exact E].
Qed.

Lemma coerce_unparseable input :
  is_nan (JS.parseFloat input) = true -> coerce (JS.parseFloat input) = 0%float.
Proof. unfold coerce, JS.isNaN. now intros ->. Qed.

(** C9, at the input [-5]: [updateShares] and [updateTarget] store the
    negative number the input parses to. *)
Theorem negative_input_stored :
  updateShares "r1" "-5" [blank "r1"]
  = [{| id := "r1"; ticker := ""; shares := (-5)%float; currentPrice := None;
        targetPrice := 0; loading := false; error := None |}]
  /\ updateTarget "r1" "-5" [blank "r1"]
     = [{| id := "r1"; ticker := ""; shares := 0; currentPrice := None;
           targetPrice := (-5)%float; loading := false; error := None |}]
  /\ ((-5) <? 0)%float = true.
Proof. repeat split; reflexivity. Qed.

(** *** Removing a row *)

(** C10. For every row list and id, [removeRow] completes without throwing;
    on a list of exactly one row it gives one blank row with the id of that
    row, whatever id was passed; on a list of two or more rows none of which
    has the id, it gives the list back. *)
Theorem removeRow_total id0 prev :
  (exists next, removeRow id0 prev = Normal next)
  /\ (forall only, prev = [only] ->
        removeRow id0 prev
        = Normal [{| id := id only; ticker := ""; shares := 0; currentPrice := None;
                     targetPrice := 0; loading := false; error := None |}])
  /\ ((2 <= List.length prev)%nat ->
      (forall a, In a prev -> id a <> id0) ->
      removeRow id0 prev = Normal prev).
Proof.
  unfold removeRow. split; [|split].
  - destruct prev as [|a [|b rest]]; cbn; eexists; reflexivity.
  - intros only ->. reflexivity.
  - intros Hlen Hno.
    destruct (Nat.eqb_spec (List.length prev) 1) as [E|_]; [lia|].
    f_equal. apply forallb_filter_id. apply forallb_forall. intros a Ha.
    destruct (String.eqb_spec (id a) id0) as [E|_]; [|reflexivity].
    now apply Hno in Ha.
Qed.

Lemma removeRow_total_witness :
  removeRow "nobody" [Sample.position "r1" "AAPL" 10 100 120]
  = Normal [blank "r1"]
  /\ removeRow "nobody"
       [Sample.position "r1" "AAPL" 10 100 120; Sample.position "r2" "GOOG" 5 50 40]
     = Normal [Sample.position "r1" "AAPL" 10 100 120;
               Sample.position "r2" "GOOG" 5 50 40].
Proof.
  split.
  - destruct (removeRow_total "nobody" [Sample.position "r1" "AAPL" 10 100 120])
      as (_ & H & _).
    apply (H (Sample.position "r1" "AAPL" 10 100 120) eq_refl).
  - destruct (removeRow_total "nobody"
                [Sample.position "r1" "AAPL" 10 100 120;
                 Sample.position "r2" "GOOG" 5 50 40]) as (_ & _ & H).
    apply H.
    + cbn. lia.
    + cbn. intros a [<-|[<-|[]]]; discriminate.
Defined.

(** *** Numbers: [x || 0] under a product *)

Lemma same_number_refl x : same_number x x.
Proof. unfold same_number, is_nan. destruct (x =? x)%float; auto. Qed.

Lemma same_number_spec a b : same_spec (Prim2SF a) (Prim2SF b) -> same_number a b.
Proof.
  unfold same_spec, same_number, is_nan. rewrite !FloatAxioms.eqb_spec.
  intros [H|[Ha Hb]]; [now left|right]. now rewrite Ha, Hb.
Qed.

Lemma Prim2SF_zero x :
  is_nan x = false -> is_zero x = true -> Prim2SF x = S754_zero (get_sign x).
Proof. intros Hn Hz. unfold Prim2SF. now rewrite Hn, Hz. Qed.

Lemma Prim2SF_not_nan x : is_nan x = false -> Prim2SF x <> S754_nan.
Proof.
  intros H. unfold Prim2SF. rewrite H.
  repeat match goal with
         | |- context [match ?e with _ => _ end] => destruct e
         end; discriminate.
Qed.

Lemma mul_zero_left s1 s2 Y :
  Y <> S754_nan ->
  same_spec (SF64mul (S754_zero s1) Y) (SF64mul (S754_zero s2) Y).
Proof.
  intros HY. destruct Y; cbn; [now left | right; now split | now elim HY | now left].
Qed.

Lemma mul_zero_right s1 s2 X :
  X <> S754_nan ->
  same_spec (SF64mul X (S754_zero s1)) (SF64mul X (S754_zero s2)).
Proof.
  intros HX. destruct X; cbn; [now left | right; now split | now elim HX | now left].
Qed.

(** On numbers that are not NaN, replacing the falsy factors by 0 changes
    at most the sign of a zero product. *)
Lemma or_zero_product x y :
  is_nan x = false -> is_nan y = false ->
  same_number (JS.or_zero x * JS.or_zero y) (x * y).
Proof.
  intros Hx Hy. unfold JS.or_zero, JS.falsy. rewrite Hx, Hy, !orb_false_r.
  destruct (is_zero x) eqn:Zx, (is_zero y) eqn:Zy.
  - apply same_number_spec. rewrite !FloatAxioms.mul_spec.
    rewrite (Prim2SF_zero x Hx Zx), (Prim2SF_zero y Hy Zy).
    change (Prim2SF 0) with (S754_zero false). left. reflexivity.
  - apply same_number_spec. rewrite !FloatAxioms.mul_spec. rewrite (Prim2SF_zero x Hx Zx).
    change (Prim2SF 0) with (S754_zero false).
    apply mul_zero_left. now apply Prim2SF_not_nan.
  - apply same_number_spec. rewrite !FloatAxioms.mul_spec. rewrite (Prim2SF_zero y Hy Zy).
    change (Prim2SF 0) with (S754_zero false).
    apply mul_zero_right. now apply Prim2SF_not_nan.
  - apply same_number_refl.
Qed.

(** A number that is neither NaN nor infinite, times 0, is 0. *)
Lemma finite_times_zero x :
  is_nan x = false -> is_infinity x = false -> same_number (x * 0) 0.
Proof.
  intros Hn Hi. apply same_number_spec. rewrite FloatAxioms.mul_spec.
  change (Prim2SF 0) with (S754_zero false). left.
  unfold Prim2SF. rewrite Hn. destruct (is_zero x); [reflexivity|]. rewrite Hi.
  repeat match goal with
         | |- context [match ?e with _ => _ end] => destruct e
         end; reflexivity.
Qed.

Lemma price_or_zero_spec p : price_or_zero p = JS.or_zero (price_or_null_zero p).
Proof. destruct p; reflexivity. Qed.

Lemma fold_left_rows (f : figures -> float) assets acc :
  fold_left (fun acc r => (acc + f (snd r))%float) (rows assets) acc
  = fold_left (fun acc a => (acc + f (derive a))%float) assets acc.
Proof.
  unfold rows. revert acc. induction assets as [|a rest IH]; intros acc;
    [reflexivity|]. cbn [map fold_left snd]. apply IH.
Qed.

(** C8. For every row list: on a row whose numbers are numbers,
    [currentValue] is [shares * currentPrice] (with 0 for a null
    [currentPrice]) and [targetValue] is [shares * targetPrice]; on every row
    [gain] is [targetValue - currentValue] and [returnPct] is
    [gain / currentValue * 100] when [currentValue > 0] and null otherwise;
    with a null [currentPrice] and a finite [shares], [currentValue] is 0;
    the totals are the sums over the rows, [gainTotal] is their difference,
    and the portfolio percentage is computed from the totals. For the rows
    (10, 100, 120) and (5, 50, 40) the totals are 1250, 1400 and 150 and the
    portfolio percentage is 12, where the rows' own percentages are 20 and
    -20. *)
Theorem derived_figures (assets : list asset) :
  (forall a, numeric a ->
     same_number (currentValue (derive a))
                 (shares a * price_or_null_zero (currentPrice a))
     /\ same_number (targetValue (derive a)) (shares a * targetPrice a)
     /\ (currentPrice a = None -> is_infinity (shares a) = false ->
         same_number (currentValue (derive a)) 0))
  /\ (forall a,
        gain (derive a) = (targetValue (derive a) - currentValue (derive a))%float
        /\ returnPct (derive a)
           = if (0 <? currentValue (derive a))%float
             then Some (gain (derive a) / currentValue (derive a) * 100)%float
             else None)
  /\ currentTotal assets
     = fold_left (fun acc a => (acc + currentValue (derive a))%float) assets 0%float
  /\ targetTotal assets
     = fold_left (fun acc a => (acc + targetValue (derive a))%float) assets 0%float
  /\ gainTotal assets = (targetTotal assets - currentTotal assets)%float
  /\ portfolioReturnPct assets
     = (if (0 <? currentTotal assets)%float
        then Some ((targetTotal assets - currentTotal assets)
                   / currentTotal assets * 100)%float
        else None)
  /\ currentTotal example_positions = 1250%float
  /\ targetTotal example_positions = 1400%float
  /\ gainTotal example_positions = 150%float
  /\ portfolioReturnPct example_positions = Some 12%float
  /\ map (fun r => returnPct (snd r)) (rows example_positions)
     = [Some 20%float; Some (-20)%float].
Proof.
  split; [|split; [|split; [|split]]].
  - intros a (Hs & Ht & Hp). cbn [derive currentValue targetValue].
    split; [|split].
    + rewrite price_or_zero_spec. apply or_zero_product; [exact Hs|].
      destruct (currentPrice a) as [p|]; [now apply Hp|reflexivity].
    + now apply or_zero_product.
    + intros -> Hi. cbn [price_or_zero]. unfold JS.or_zero, JS.falsy.
      rewrite Hs, orb_false_r.
      destruct (is_zero (shares a)); [now left|now apply finite_times_zero].
  - intros a. split; reflexivity.
  - apply (fold_left_rows currentValue).
  - apply (fold_left_rows targetValue).
  - repeat split; reflexivity.
Qed.

Lemma derived_figures_witness :
  same_number (currentValue (derive (Sample.position "r1" "AAPL" 10 100 120)))
              (10 * 100)
  /\ same_number (targetValue (derive (Sample.position "r1" "AAPL" 10 100 120)))
                 (10 * 120).
Proof.
  destruct (derived_figures []) as [H _].
  destruct (H (Sample.position "r1" "AAPL" 10 100 120)) as (Hc & Ht & _).
  - repeat split. intros p [= <-]. reflexivity.
  - split; [exact Hc|exact Ht].
Defined.

(** *** The ids of the rows *)

Lemma map_id_unchanged (f : asset -> asset) l :
  (forall a, id (f a) = id a) -> map id (map f l) = map id l.
Proof. intros H. rewrite map_map. apply map_ext. exact H. Qed.

Lemma updateTicker_ids i v l : map id (updateTicker i v l) = map id l.
Proof. apply map_id_unchanged. intros a. now destruct (String.eqb (id a) i). Qed.

Lemma updateShares_ids i v l : map id (updateShares i v l) = map id l.
Proof. apply map_id_unchanged. intros a. now destruct (String.eqb (id a) i). Qed.

Lemma updateTarget_ids i v l : map id (updateTarget i v l) = map id l.
Proof. apply map_id_unchanged. intros a. now destruct (String.eqb (id a) i). Qed.

Lemma markLoading_ids l : map id (markLoading l) = map id l.
Proof. apply map_id_unchanged. intros a. now destruct (truthy (ticker a)). Qed.

Lemma applyResults_ids results l : map id (applyResults results l) = map id l.
Proof.
  apply map_id_unchanged. intros a.
  destruct (find _ results); [|reflexivity].
  now destruct (negb (truthy (ticker a))).
Qed.

Lemma filter_ids i l :
  map id (filter (fun a => negb (String.eqb (id a) i)) l)
  = filter (fun j => negb (String.eqb j i)) (map id l).
Proof.
  induction l as [|a rest IH]; [reflexivity|]. cbn [filter map].
  destruct (negb (String.eqb (id a) i)); cbn [map]; now rewrite IH.
Qed.

Lemma removeRow_ids i l next :
  removeRow i l = Normal next -> map id next = ids_after (RemoveRow i) (map id l).
Proof.
  unfold removeRow, ids_after.
  destruct l as [|a [|b rest]]; cbn [List.length Nat.eqb nth_error map];
    intros [= <-]; try reflexivity.
  apply (filter_ids i (a :: b :: rest)).
Qed.

Create Rewrite HintDb row_ids.
#[local] Hint Rewrite updateTicker_ids updateShares_ids updateTarget_ids
  markLoading_ids applyResults_ids : row_ids.

(** The ids after an event are the ids before it, rearranged by nothing but
    the event: no operation rewrites an id. *)
Lemma step_ids s e s' :
  step s e = Some s' -> map id (assets s') = ids_after e (map id (assets s)).
Proof.
  destruct e as [i v|i v|i v|newId|i| |k nets]; cbn [step ids_after];
    try (intros [= <-]; cbn [assets with_assets];
         now autorewrite with row_ids).
  - intros [= <-]. cbn [assets]. unfold addRow. now rewrite map_app.
  - destruct (removeRow i (assets s)) as [next|] eqn:E; [|discriminate].
    intros [= <-]. now apply removeRow_ids.
  - destruct (nth_error _ k) as [snapshot|]; [|discriminate].
    destruct (fetchResults nets snapshot) as [results|]; intros [= <-];
      cbn [assets]; now autorewrite with row_ids.
Qed.

(** With distinct ids, removing by id leaves a row behind. *)
Lemma filter_keeps_one i (l : list string) :
  NoDup l -> (2 <= List.length l)%nat ->
  filter (fun j => negb (String.eqb j i)) l <> [].
Proof.
  destruct l as [|a [|b rest]]; cbn [List.length]; [lia|lia|]. intros Hnd _.
  inversion Hnd as [|x l Hnotin _]; subst. cbn [filter].
  destruct (String.eqb_spec a i) as [->|_]; [|discriminate].
  destruct (String.eqb_spec b i) as [->|_]; [|discriminate].
  exfalso. apply Hnotin. now left.
Qed.

(** *** The numbers of the rows *)

Lemma valid_price_number v p : Value.valid_price v = Some p -> is_nan p = false.
Proof.
  unfold Value.valid_price, JS.isNaN. destruct v; try discriminate.
  destruct (is_nan x) eqn:E; [discriminate|]. now intros [= <-].
Qed.

Lemma csv_close_number csv p : csv_close csv = Some p -> is_nan p = false.
Proof.
  rewrite csv_close_field. destruct (close_field csv) as [f|]; [|discriminate].
  destruct (is_nan (JS.parseFloat f)) eqn:E; [discriminate|]. now intros [= <-].
Qed.

Lemma quote_result_number o p : quote_result o = Some p -> is_nan p = false.
Proof.
  destruct o as [|r]; cbn [quote_result]; [discriminate|].
  destruct (ok r); [|discriminate].
  destruct (json r); [apply valid_price_number|discriminate].
Qed.

Lemma chart_result_number o p : chart_result o = Some p -> is_nan p = false.
Proof.
  destruct o as [|r]; cbn [chart_result]; [discriminate|].
  destruct (ok r); [|discriminate].
  destruct (json r); [apply valid_price_number|discriminate].
Qed.

Lemma stooq_result_number o p : stooq_result o = Some p -> is_nan p = false.
Proof.
  destruct o as [|r]; cbn [stooq_result]; [discriminate|].
  destruct (ok r); [|discriminate].
  destruct (text r); [apply csv_close_number|discriminate].
Qed.

(** What [fetchCurrentPrice] returns is null or a number that is not NaN. *)
Lemma chain_price_number ticker net p :
  fst (chain ticker net) = Some p -> is_nan p = false.
Proof.
  unfold chain. destruct (String.eqb ticker ""); [discriminate|].
  destruct (quote_result (net (quoteRequest ticker))) as [q|] eqn:Eq.
  - cbn [fst]. intros [= <-]. now apply quote_result_number in Eq.
  - destruct (chart_result (net (chartRequest ticker))) as [c|] eqn:Ec.
    + cbn [fst]. intros [= <-]. now apply chart_result_number in Ec.
    + cbn [fst]. apply stooq_result_number.
Qed.

Lemma results_from_number i nets l r p :
  In r (results_from i nets l) -> Result.price r = Some p -> is_nan p = false.
Proof.
  revert i. induction l as [|a rest IH]; intros i; [intros []|].
  cbn [results_from In]. intros [<-|Hin]; [|now apply (IH (S i))].
  unfold result_of. destruct (negb (truthy (ticker a))); [discriminate|].
  cbn [Result.price]. apply chain_price_number.
Qed.

Lemma blank_numeric i : numeric (blank i).
Proof. repeat split. discriminate. Qed.

Lemma Forall_map_numeric (f : asset -> asset) l :
  (forall a, numeric a -> numeric (f a)) ->
  Forall numeric l -> Forall numeric (map f l).
Proof.
  intros Hf H. apply Forall_forall. intros a' Hin.
  apply in_map_iff in Hin as (a & <- & Ha). apply Hf.
  now apply (proj1 (Forall_forall _ _) H).
Qed.

(** *** What a step preserves *)

Lemma ids_after_nonempty e ids :
  NoDup ids -> ids <> [] -> ids_after e ids <> [].
Proof.
  intros Hnd Hne. destruct e; cbn [ids_after]; try exact Hne.
  - now destruct ids.
  - destruct ids as [|a [|b rest]]; [now elim Hne|discriminate|].
    apply filter_keeps_one; [exact Hnd|cbn; lia].
Qed.

Lemma ids_after_nodup e ids :
  NoDup ids ->
  (forall newId, e = AddRow newId -> ~ In newId ids) ->
  NoDup (ids_after e ids).
Proof.
  intros Hnd Hnew. destruct e; cbn [ids_after]; try exact Hnd.
  - apply NoDup_app; [exact Hnd|repeat constructor; intros []|].
    intros x Hx [<-|[]]. revert Hx. now apply Hnew.
  - destruct ids as [|a [|b rest]]; [constructor|exact Hnd|].
    now apply NoDup_filter.
Qed.

Lemma ids_after_incl e ids x :
  In x (ids_after e ids) -> In x ids \/ e = AddRow x.
Proof.
  destruct e; cbn [ids_after]; try (now left).
  - intros H. apply in_app_or in H as [H|[<-|[]]]; [now left|now right].
  - destruct ids as [|a [|b rest]]; [intros []|now left|].
    intros H. apply filter_In in H. now left.
Qed.

Lemma not_issued newId issued :
  existsb (String.eqb newId) issued = false -> ~ In newId issued.
Proof.
  intros H Hin. assert (E : existsb (String.eqb newId) issued = true).
  { apply existsb_exists. exists newId. split; [exact Hin|apply String.eqb_refl]. }
  congruence.
Qed.

Lemma step_issued s e s' x :
  step s e = Some s' -> In x (issued s) -> In x (issued s').
Proof.
  destruct e as [i v|i v|i v|newId|i| |k nets]; cbn [step];
    try (intros [= <-]; now cbn).
  - intros [= <-]. now right.
  - destruct (removeRow i (assets s)); [|discriminate]. now intros [= <-].
  - destruct (nth_error _ k) as [snapshot|]; [|discriminate].
    now destruct (fetchResults nets snapshot); intros [= <-].
Qed.

(** A row-wise update keeps the numbers of the rows: [test] tells the rows
    it rewrites, [tac] settles the fields it writes. *)
Ltac rowwise Hnum test tac :=
  apply Forall_map_numeric; [|exact Hnum];
  let a := fresh "a" in
  let Hs := fresh "Hs" in
  let Ht := fresh "Ht" in
  let Hp := fresh "Hp" in
  intros a (Hs & Ht & Hp);
  let t := eval cbv beta in (test a) in
  destruct t; [|now repeat split];
  repeat split; first [assumption | discriminate | tac].

Lemma step_numeric s e s' :
  Forall numeric (assets s) -> step s e = Some s' -> Forall numeric (assets s').
Proof.
  intros Hnum.
  destruct e as [i v|i v|i v|newId|i| |k nets]; cbn [step].
  - intros [= <-]. unfold updateTicker. cbn [assets with_assets].
    rowwise Hnum (fun a => String.eqb (id a) i) idtac.
  - intros [= <-]. unfold updateShares. cbn [assets with_assets].
    rowwise Hnum (fun a => String.eqb (id a) i) ltac:(apply coerce_not_nan).
  - intros [= <-]. unfold updateTarget. cbn [assets with_assets].
    rowwise Hnum (fun a => String.eqb (id a) i) ltac:(apply coerce_not_nan).
  - intros [= <-]. cbn [assets].
    apply Forall_app. split; [exact Hnum|]. repeat constructor. discriminate.
  - unfold removeRow. destruct (List.length (assets s) =? 1)%nat.
    + destruct (nth_error (assets s) 0); [|discriminate]. intros [= <-].
      repeat constructor. discriminate.
    + intros [= <-]. cbn [assets with_assets]. apply Forall_forall.
      intros a Ha. apply filter_In in Ha as [Ha _].
      now apply (proj1 (Forall_forall _ _) Hnum).
  - intros [= <-]. unfold markLoading. cbn [assets].
    rowwise Hnum (fun a => truthy (ticker a)) idtac.
  - destruct (nth_error _ k) as [snapshot|]; [|discriminate].
    rewrite fetchResults_run. intros [= <-]. cbn [assets].
    apply Forall_map_numeric; [|exact Hnum].
    intros a (Hs & Ht & Hp).
    destruct (find _ _) as [res|] eqn:Ef; [|now repeat split].
    destruct (negb (truthy (ticker a))); [now repeat split|].
    repeat split; [exact Hs|exact Ht|]. cbn [currentPrice]. intros p Hres.
    apply find_some in Ef as [Hin _].
    now apply (results_from_number _ _ _ _ _ Hin Hres).
Qed.

Lemma fresh_step_step s e s' :
  fresh_step s e = Some s' ->
  step s e = Some s' /\ (forall newId, e = AddRow newId -> ~ In newId (issued s)).
Proof.
  unfold fresh_step.
  destruct e as [i v|i v|i v|newId|i| |k nets];
    try (intros H; split; [exact H|discriminate]).
  destruct (existsb (String.eqb newId) (issued s)) eqn:E; [discriminate|].
  intros H. split; [exact H|]. intros x [= <-]. now apply not_issued.
Qed.

Lemma step_well_formed s e s' :
  well_formed s -> fresh_step s e = Some s' -> well_formed s'.
Proof.
  intros (Hne & Hnd & Hin & Hnum) Hfresh.
  destruct (fresh_step_step _ _ _ Hfresh) as [Hstep Hnew].
  pose proof (step_ids _ _ _ Hstep) as Hids.
  split; [|split; [|split]].
  - intros E. apply (ids_after_nonempty e (map id (assets s)) Hnd).
    + intros E'. apply Hne. now apply map_eq_nil in E'.
    + now rewrite <- Hids, E.
  - rewrite Hids. apply ids_after_nodup; [exact Hnd|].
    intros newId He Hx. apply (Hnew newId He). now apply Hin.
  - intros x Hx. rewrite Hids in Hx. apply ids_after_incl in Hx as [Hx| ->].
    + apply (step_issued _ _ _ _ Hstep). now apply Hin.
    + cbn [step] in Hstep. injection Hstep as <-. now left.
  - now apply (step_numeric s e).
Qed.

Lemma init_well_formed firstId : well_formed (init firstId).
Proof.
  repeat split; cbn; try discriminate.
  - repeat constructor. intros [].
  - intros x H. exact H.
  - repeat constructor. discriminate.
Qed.

Lemma run_well_formed events s s' :
  well_formed s -> run fresh_step s events = Some s' -> well_formed s'.
Proof.
  revert s. induction events as [|e rest IH]; intros s Hwf; cbn [run].
  - now intros [= <-].
  - destruct (fresh_step s e) as [s1|] eqn:E; [|discriminate].
    apply IH. now apply (step_well_formed s e).
Qed.

Lemma freshly_reachable_well_formed s : freshly_reachable s -> well_formed s.
Proof.
  intros (firstId & events & Hrun).
  now apply (run_well_formed events (init firstId) s (init_well_formed firstId)).
Qed.

(** C7. The rows can all go. [genId]'s comment promises a unique
    identifier for each row, but [genId] returns the same id twice when two
    calls read the same millisecond and their draws of [Math.random] share
    their first five decimals. [removeRow] goes by id, so on two rows with
    one id it removes both, and its guard for a single row is never
    reached: the session of [Collision] ends with no row at all. *)
Theorem repeated_id_empties_rows :
  Collision.first = "1730500000000-25000"
  /\ Collision.second = "1730500000777-50000"
  /\ Collision.third = "1730500000777-50000"
  /\ reachable (outcome step Collision.first Collision.events)
  /\ option_map assets (run step (init Collision.first) Collision.events) = Some []
  /\ option_map assets
       (run step (init Collision.first) [AddRow Collision.second; AddRow Collision.third])
     = Some [blank Collision.first; blank Collision.second; blank Collision.second]
  /\ removeRow Collision.second [blank Collision.second; blank Collision.third]
     = Normal [].
Proof.
  split; [|split; [|split; [|split; [|split; [|split]]]]].
  - vm_compute. reflexivity.
  - vm_compute. reflexivity.
  - vm_compute. reflexivity.
  - exists Collision.first, Collision.events. vm_compute. reflexivity.
  - vm_compute. reflexivity.
  - vm_compute. reflexivity.
  - vm_compute. reflexivity.
Qed.

(** *** Prices and the tickers they were resolved for *)

Lemma same_id_same_row (l : list asset) a b :
  NoDup (map id l) -> In a l -> In b l -> id a = id b -> a = b.
Proof.
  induction l as [|h rest IH]; [intros _ []|].
  cbn [map]. intros Hnd Ha Hb E. inversion Hnd as [|x l' Hnotin Hnd']; subst.
  destruct Ha as [->|Ha], Hb as [->|Hb].
  - reflexivity.
  - exfalso. apply Hnotin. rewrite E. now apply in_map.
  - exfalso. apply Hnotin. rewrite <- E. now apply in_map.
  - now apply IH.
Qed.

Lemma find_by_id (l : list asset) a :
  NoDup (map id l) -> In a l ->
  find (fun x => String.eqb (id x) (id a)) l = Some a.
Proof.
  intros Hnd Ha.
  destruct (find (fun x => String.eqb (id x) (id a)) l) as [b|] eqn:E.
  - apply find_some in E as [Hb Hid]. apply String.eqb_eq in Hid.
    f_equal. now apply (same_id_same_row l).
  - pose proof (find_none _ _ E a Ha) as H. cbn in H.
    now rewrite String.eqb_refl in H.
Qed.

(** The result a row finds was computed for the first row of the snapshot
    that has its id. *)
Lemma find_result_snapshot nets l i :
  forall k,
    match find (fun r => String.eqb (Result.id r) i) (results_from k nets l) with
    | Some res =>
        exists old n,
          find (fun x => String.eqb (id x) i) l = Some old
          /\ res = result_of (nets n) old
    | None => find (fun x => String.eqb (id x) i) l = None
    end.
Proof.
  induction l as [|h rest IH]; intros k; [reflexivity|].
  cbn [results_from find]. rewrite result_of_id.
  destruct (String.eqb (id h) i); [|apply IH].
  now exists h, k.
Qed.








Lemma truthy_nonempty t : truthy t = true <-> t <> "".
Proof. unfold truthy. destruct (String.eqb_spec t ""); cbn; intuition congruence. Qed.












(** * Further properties of the code *)

(** ** The resolver *)

(** X1. A call of [fetchCurrentPrice] only appends to the log, between
    none and three exchanges: none for an empty ticker; otherwise the quote
    request, then the chart request only when the quote step gave no price,
    then the Stooq request only when neither gave one. What it returns is
    the price of the last step it ran. *)
Theorem request_discipline ticker net log :
  exists added,
    fetchCurrentPrice ticker net log
    = (Normal (fst (chain ticker net)), (log ++ added)%list)
    /\ ((ticker = "" /\ added = [] /\ fst (chain ticker net) = None)
        \/ (ticker <> "" /\
            ((added = [asked net (quoteRequest ticker)]
              /\ quote_result (net (quoteRequest ticker)) <> None
              /\ fst (chain ticker net) = quote_result (net (quoteRequest ticker)))
             \/ (added = [asked net (quoteRequest ticker);
                          asked net (chartRequest ticker)]
                 /\ quote_result (net (quoteRequest ticker)) = None
                 /\ chart_result (net (chartRequest ticker)) <> None
                 /\ fst (chain ticker net) = chart_result (net (chartRequest ticker)))
             \/ (added = [asked net (quoteRequest ticker);
                          asked net (chartRequest ticker);
                          asked net (stooqRequest ticker)]
                 /\ quote_result (net (quoteRequest ticker)) = None
                 /\ chart_result (net (chartRequest ticker)) = None
                 /\ fst (chain ticker net)
                    = stooq_result (net (stooqRequest ticker)))))).
Proof.
  exists (snd (chain ticker net)). split; [apply fetchCurrentPrice_run|].
  unfold chain. destruct (String.eqb_spec ticker "") as [E|E].
  - left. now repeat split.
  - right. split; [exact E|].
    destruct (quote_result (net (quoteRequest ticker))) as [p|] eqn:Eq.
    + left. now repeat split.
    + right. destruct (chart_result (net (chartRequest ticker))) as [p|] eqn:Ec.
      * left. now repeat split.
      * right. now repeat split.
Qed.

(** X2. When the quote step fails and the chart endpoint answers ok with a
    payload that carries the price [p], the call returns [p] after exactly
    two requests: Stooq is not asked. *)
Theorem secondary_price_returned ticker net r payload p :
  ticker <> "" ->
  json_source_fails quote_price (net (quoteRequest ticker)) ->
  net (chartRequest ticker) = Responded r ->
  ok r = true ->
  json r = Some payload ->
  chart_payload payload p ->
  fetchCurrentPrice ticker net []
  = (Normal (Some p),
     [asked net (quoteRequest ticker); (chartRequest ticker, Responded r)]).
Proof.
  intros Ht Hq Hnet Hok Hj Hp. rewrite fetchCurrentPrice_run. cbn [app].
  unfold chain. destruct (String.eqb_spec ticker "") as [E|_]; [now elim Ht|].
  rewrite (quote_fails_result _ Hq). unfold asked. rewrite Hnet.
  cbn [chart_result]. rewrite Hok, Hj, (chart_payload_price _ _ Hp).
  reflexivity.
Qed.

Lemma secondary_price_returned_witness :
  fetchCurrentPrice "AAPL"
    (Sample.only (chartRequest "AAPL") (Sample.json_ok (Sample.chart_of (VNum 187.5)))) []
  = (Normal (Some 187.5%float),
     [asked (Sample.only (chartRequest "AAPL")
               (Sample.json_ok (Sample.chart_of (VNum 187.5)))) (quoteRequest "AAPL");
      (chartRequest "AAPL",
       Responded (Sample.json_ok (Sample.chart_of (VNum 187.5))))]).
Proof.
  apply (secondary_price_returned "AAPL" _ _ (Sample.chart_of (VNum 187.5))).
  - discriminate.
  - apply json_network_error.
  - reflexivity.
  - reflexivity.
  - reflexivity.
  - eapply chart_market; [reflexivity | reflexivity | reflexivity | split; reflexivity].
Defined.

(** X3. When both Yahoo steps fail and Stooq answers ok with a CSV whose
    close field parses to a number, the call returns that number, after
    three requests. *)
Theorem tertiary_price_returned ticker net r csv field :
  ticker <> "" ->
  json_source_fails quote_price (net (quoteRequest ticker)) ->
  json_source_fails chart_price (net (chartRequest ticker)) ->
  net (stooqRequest ticker) = Responded r ->
  ok r = true ->
  text r = Some csv ->
  close_field csv = Some field ->
  is_nan (JS.parseFloat field) = false ->
  fetchCurrentPrice ticker net []
  = (Normal (Some (JS.parseFloat field)),
     [asked net (quoteRequest ticker); asked net (chartRequest ticker);
      (stooqRequest ticker, Responded r)]).
Proof.
  intros Ht Hq Hc Hnet Hok Hx Hf Hn. rewrite fetchCurrentPrice_run. cbn [app].
  unfold chain. destruct (String.eqb_spec ticker "") as [E|_]; [now elim Ht|].
  rewrite (quote_fails_result _ Hq), (chart_fails_result _ Hc).
  unfold asked. rewrite Hnet. cbn [stooq_result fst snd].
  now rewrite Hok, Hx, csv_close_field, Hf, Hn.
Qed.

Lemma tertiary_price_returned_witness :
  fetchCurrentPrice "AAPL"
    (Sample.only (stooqRequest "AAPL") (Sample.text_ok (Sample.csv_of "185.64"))) []
  = (Normal (Some (JS.parseFloat "185.64")),
     [asked (Sample.only (stooqRequest "AAPL")
               (Sample.text_ok (Sample.csv_of "185.64"))) (quoteRequest "AAPL");
      asked (Sample.only (stooqRequest "AAPL")
               (Sample.text_ok (Sample.csv_of "185.64"))) (chartRequest "AAPL");
      (stooqRequest "AAPL", Responded (Sample.text_ok (Sample.csv_of "185.64")))]).
Proof.
  apply (tertiary_price_returned "AAPL" _ _ (Sample.csv_of "185.64") "185.64").
  - discriminate.
  - apply json_network_error.
  - apply json_network_error.
  - reflexivity.
  - reflexivity.
  - reflexivity.
  - reflexivity.
  - reflexivity.
Defined.

(** X4. Whatever the network answers, what [fetchCurrentPrice] returns is
    null or a number that is not NaN. *)
Theorem resolver_never_nan ticker net log p :
  fst (fetchCurrentPrice ticker net log) = Normal (Some p) -> is_nan p = false.
Proof.
  rewrite fetchCurrentPrice_run. cbn [fst]. intros [= H].
  now apply (chain_price_number ticker net).
Qed.

Lemma resolver_never_nan_witness : is_nan 187.5%float = false.
Proof.
  apply (resolver_never_nan "AAPL"
           (Sample.only (quoteRequest "AAPL")
              (Sample.json_ok (Sample.quote_of (VNum 187.5)))) []).
  reflexivity.
Defined.

(** X5. In the quote step, a [regularMarketPrice] that is present and not
    null decides alone: when it is not a number (or is NaN) the step gives no
    price, whatever [regularMarketPreviousClose] holds. Only when it is
    absent or null is [regularMarketPreviousClose] read. *)
Theorem market_price_decides ticker net log r top inner fields more :
  net (quoteRequest ticker) = Responded r ->
  ok r = true ->
  json r = Some (VObj top) ->
  Value.lookup "quoteResponse" top = VObj inner ->
  Value.lookup "result" inner = VArr (VObj fields :: more) ->
  fst (tryQuote ticker net log)
  = Normal
      (if Value.nullish (Value.lookup "regularMarketPrice" fields)
       then Value.valid_price (Value.lookup "regularMarketPreviousClose" fields)
       else Value.valid_price (Value.lookup "regularMarketPrice" fields)).
Proof.
  intros Hnet Hok Hj Hq Hr. rewrite tryQuote_run, Hnet. cbn [fst quote_result].
  rewrite Hok, Hj. f_equal.
  unfold quote_price, Value.opt_get, Value.opt_first, Value.coalesce, Value.get.
  cbn [Value.nullish]. rewrite Hq. cbn [Value.nullish]. rewrite Hr.
  cbn [Value.nullish].
  destruct (Value.lookup "regularMarketPrice" fields) eqn:Em; cbn [Value.nullish];
    try reflexivity;
    destruct (Value.lookup "regularMarketPreviousClose" fields); reflexivity.
Qed.

Lemma market_price_decides_witness :
  fst (tryQuote "AAPL"
         (Sample.only (quoteRequest "AAPL")
            (Sample.json_ok
               (VObj [("quoteResponse",
                       VObj [("result",
                              VArr [VObj [("regularMarketPrice", VStr "n/a");
                                          ("regularMarketPreviousClose", VNum 100)]])])])))
         [])
  = Normal None.
Proof.
  exact (market_price_decides "AAPL" _ []
           (Sample.json_ok
              (VObj [("quoteResponse",
                      VObj [("result",
                             VArr [VObj [("regularMarketPrice", VStr "n/a");
                                         ("regularMarketPreviousClose", VNum 100)]])])]))
           [("quoteResponse",
             VObj [("result",
                    VArr [VObj [("regularMarketPrice", VStr "n/a");
                                ("regularMarketPreviousClose", VNum 100)]])])]
           [("result",
             VArr [VObj [("regularMarketPrice", VStr "n/a");
                         ("regularMarketPreviousClose", VNum 100)]])]
           [("regularMarketPrice", VStr "n/a");
            ("regularMarketPreviousClose", VNum 100)]
           [] eq_refl eq_refl eq_refl eq_refl eq_refl).
Defined.

(** *** Letter case and the Stooq symbol *)

Lemma lower_char_idempotent c : JS.lower_char (JS.lower_char c) = JS.lower_char c.
Proof. destruct c as [[] [] [] [] [] [] [] []]; reflexivity. Qed.

Lemma lower_char_not_upper c : JS.is_upper (JS.lower_char c) = false.
Proof. destruct c as [[] [] [] [] [] [] [] []]; reflexivity. Qed.

Lemma toLowerCase_idempotent s : JS.toLowerCase (JS.toLowerCase s) = JS.toLowerCase s.
Proof.
  unfold JS.toLowerCase. induction s as [|c r IH]; [reflexivity|].
  cbn [JS.map_chars]. now rewrite lower_char_idempotent, IH.
Qed.

Lemma all_chars_append p a b :
  JS.all_chars p (a ++ b) = JS.all_chars p a && JS.all_chars p b.
Proof.
  induction a as [|c r IH]; [reflexivity|]. cbn [append JS.all_chars].
  now rewrite IH, andb_assoc.
Qed.

Lemma all_chars_substring p n m s :
  JS.all_chars p s = true -> JS.all_chars p (substring n m s) = true.
Proof.
  revert n m. induction s as [|c r IH]; intros n m; [now destruct n, m|].
  cbn [JS.all_chars]. intros H. apply andb_prop in H as [Hc Hr].
  destruct n as [|n']; cbn [substring].
  - destruct m as [|m']; [reflexivity|]. cbn [JS.all_chars].
    now rewrite Hc, (IH 0%nat m' Hr).
  - now apply IH.
Qed.

Lemma toLowerCase_no_upper s :
  JS.all_chars (fun c => negb (JS.is_upper c)) (JS.toLowerCase s) = true.
Proof.
  unfold JS.toLowerCase. induction s as [|c r IH]; [reflexivity|].
  cbn [JS.map_chars JS.all_chars]. now rewrite lower_char_not_upper, IH.
Qed.

(** X6. The Stooq symbol depends on the ticker through its lower-case
    form only: the ticker in lower case gives the symbol the ticker gives,
    and so does every string that reads the same in lower case. And no
    letter from A to Z is ever in a symbol. *)
Theorem stooq_symbol_case ticker :
  stooqSymbol (JS.toLowerCase ticker) = stooqSymbol ticker
  /\ (forall other,
        JS.toLowerCase other = JS.toLowerCase ticker ->
        stooqSymbol other = stooqSymbol ticker)
  /\ JS.all_chars (fun c => negb (JS.is_upper c)) (stooqSymbol ticker) = true.
Proof.
  split; [|split].
  - unfold stooqSymbol. now rewrite toLowerCase_idempotent.
  - intros other E. unfold stooqSymbol. now rewrite E.
  - unfold stooqSymbol. pose proof (toLowerCase_no_upper ticker) as H.
    destruct (JS.test_letters _).
    + rewrite all_chars_append, H. reflexivity.
    + unfold JS.replace_suffix. destruct (JS.endsWith _ _); [|exact H].
      rewrite all_chars_append, (all_chars_substring _ _ _ _ H). reflexivity.
Qed.

Lemma stooq_symbol_case_witness : stooqSymbol "Btc-Usd" = stooqSymbol "BTC-USD".
Proof.
  destruct (stooq_symbol_case "BTC-USD") as (_ & H & _).
  apply H. reflexivity.
Defined.

(** *** One address per ticker *)

Lemma unescape_escape c :
  unescape (JS.hex_digit (JS.code c / 16)) (JS.hex_digit (JS.code c mod 16)) = c.
Proof. destruct c as [[] [] [] [] [] [] [] []]; reflexivity. Qed.

Lemma encodeURIComponent_injective s s' :
  JS.encodeURIComponent s = JS.encodeURIComponent s' -> s = s'.
Proof.
  revert s'. induction s as [|c r IH]; intros [|c' r'];
    cbn [JS.encodeURIComponent].
  - reflexivity.
  - destruct (JS.uri_unreserved c'); discriminate.
  - destruct (JS.uri_unreserved c); discriminate.
  - destruct (JS.uri_unreserved c) eqn:Ec, (JS.uri_unreserved c') eqn:Ec'.
    + intros [= -> H]. f_equal. now apply IH.
    + intros [= -> _]. discriminate Ec.
    + intros [= <- _]. discriminate Ec'.
    + intros [= Hh Hl H]. f_equal; [|now apply IH].
      rewrite <- (unescape_escape c), <- (unescape_escape c'). now rewrite Hh, Hl.
Qed.

Lemma append_cancel_left p a b : p ++ a = p ++ b -> a = b.
Proof. induction p as [|c r IH]; [easy|]. cbn [append]. intros [= H]. now apply IH. Qed.

Lemma length_of_append a b :
  String.length (a ++ b) = (String.length a + String.length b)%nat.
Proof. induction a as [|c r IH]; [reflexivity|]. cbn [append String.length]. now rewrite IH. Qed.

Lemma append_cancel_right a b s : a ++ s = b ++ s -> a = b.
Proof.
  revert b. induction a as [|c r IH]; intros [|c' r'] H.
  - reflexivity.
  - apply (f_equal String.length) in H. cbn [append String.length] in H.
    rewrite length_of_append in H. lia.
  - apply (f_equal String.length) in H. cbn [append String.length] in H.
    rewrite length_of_append in H. lia.
  - cbn [append] in H. injection H as -> H. f_equal. now apply IH.
Qed.

Lemma proxied_injective a b : proxied a = proxied b -> a = b.
Proof.
  unfold proxied. intros H. apply append_cancel_left in H.
  now apply encodeURIComponent_injective.
Qed.

(** X7. Two different tickers never share a request address at the quote
    endpoint or at the chart endpoint, and two different symbols never share
    one at Stooq: percent-encoding keeps every character of the ticker apart
    from the rest of the address. *)
Theorem one_address_per_ticker t t' :
  t <> t' ->
  quoteRequest t <> quoteRequest t'
  /\ chartRequest t <> chartRequest t'
  /\ proxied (stooqUrl t) <> proxied (stooqUrl t').
Proof.
  intros Hne. repeat split; intros H; apply Hne; apply proxied_injective in H.
  - unfold quoteEndpoint in H. apply append_cancel_left in H.
    now apply encodeURIComponent_injective.
  - unfold chartEndpoint in H. apply append_cancel_left in H.
    apply append_cancel_right in H. now apply encodeURIComponent_injective.
  - unfold stooqUrl in H. apply append_cancel_left in H.
    apply append_cancel_right in H. now apply encodeURIComponent_injective.
Qed.

Lemma one_address_per_ticker_witness :
  quoteRequest "AAPL" <> quoteRequest "aapl"
  /\ chartRequest "AAPL" <> chartRequest "aapl"
  /\ proxied (stooqUrl "AAPL") <> proxied (stooqUrl "aapl").
Proof. apply (one_address_per_ticker "AAPL" "aapl"). discriminate. Defined.

(** ** Editing rows *)

(** X8. [updateShares] keeps the number and order of the rows; a row with
    the id gets as [shares] the number the input parses to, or 0 when it does
    not parse, and that is never NaN; its other fields, and the rows with
    another id, are left as they were. *)
Theorem updateShares_frame prev id0 input :
  List.length (updateShares id0 input prev) = List.length prev
  /\ forall i a,
       nth_error prev i = Some a ->
       (id a = id0 ->
        exists n,
          nth_error (updateShares id0 input prev) i
          = Some {| id := id a; ticker := ticker a; shares := n;
                    currentPrice := currentPrice a; targetPrice := targetPrice a;
                    loading := loading a; error := error a |}
          /\ is_nan n = false
          /\ (is_nan (JS.parseFloat input) = true -> n = 0%float)
          /\ (is_nan (JS.parseFloat input) = false -> n = JS.parseFloat input))
       /\ (id a <> id0 -> nth_error (updateShares id0 input prev) i = Some a).
Proof.
  unfold updateShares. split; [apply length_map|].
  intros i a Hi. rewrite nth_error_map, Hi. cbn [option_map].
  destruct (String.eqb_spec (id a) id0); split; intros; try congruence.
  exists (coerce (JS.parseFloat input)). split; [reflexivity|].
  split; [apply coerce_not_nan|].
  unfold coerce, JS.isNaN. split; intros ->; reflexivity.
Qed.

Lemma updateShares_frame_witness :
  exists n,
    nth_error (updateShares "r1" "abc" [Sample.position "r1" "AAPL" 10 100 120]) 0
    = Some {| id := "r1"; ticker := "AAPL"; shares := n;
              currentPrice := Some 100%float; targetPrice := 120;
              loading := false; error := None |}
    /\ is_nan n = false
    /\ (is_nan (JS.parseFloat "abc") = true -> n = 0%float)
    /\ (is_nan (JS.parseFloat "abc") = false -> n = JS.parseFloat "abc").
Proof.
  destruct (updateShares_frame [Sample.position "r1" "AAPL" 10 100 120] "r1" "abc")
    as [_ H].
  apply (H 0%nat (Sample.position "r1" "AAPL" 10 100 120) eq_refl). reflexivity.
Defined.

(** X9. [updateTarget] does the same to [targetPrice]. *)
Theorem updateTarget_frame prev id0 input :
  List.length (updateTarget id0 input prev) = List.length prev
  /\ forall i a,
       nth_error prev i = Some a ->
       (id a = id0 ->
        exists n,
          nth_error (updateTarget id0 input prev) i
          = Some {| id := id a; ticker := ticker a; shares := shares a;
                    currentPrice := currentPrice a; targetPrice := n;
                    loading := loading a; error := error a |}
          /\ is_nan n = false
          /\ (is_nan (JS.parseFloat input) = true -> n = 0%float)
          /\ (is_nan (JS.parseFloat input) = false -> n = JS.parseFloat input))
       /\ (id a <> id0 -> nth_error (updateTarget id0 input prev) i = Some a).
Proof.
  unfold updateTarget. split; [apply length_map|].
  intros i a Hi. rewrite nth_error_map, Hi. cbn [option_map].
  destruct (String.eqb_spec (id a) id0); split; intros; try congruence.
  exists (coerce (JS.parseFloat input)). split; [reflexivity|].
  split; [apply coerce_not_nan|].
  unfold coerce, JS.isNaN. split; intros ->; reflexivity.
Qed.

Lemma updateTarget_frame_witness :
  exists n,
    nth_error (updateTarget "r1" "12.5" [Sample.position "r1" "AAPL" 10 100 120]) 0
    = Some {| id := "r1"; ticker := "AAPL"; shares := 10;
              currentPrice := Some 100%float; targetPrice := n;
              loading := false; error := None |}
    /\ is_nan n = false
    /\ (is_nan (JS.parseFloat "12.5") = true -> n = 0%float)
    /\ (is_nan (JS.parseFloat "12.5") = false -> n = JS.parseFloat "12.5").
Proof.
  destruct (updateTarget_frame [Sample.position "r1" "AAPL" 10 100 120] "r1" "12.5")
    as [_ H].
  apply (H 0%nat (Sample.position "r1" "AAPL" 10 100 120) eq_refl). reflexivity.
Defined.

Lemma map_unchanged (f : asset -> asset) l :
  (forall a, In a l -> f a = a) -> map f l = l.
Proof.
  intros H. rewrite <- (map_id l) at 2. now apply map_ext_in.
Qed.

(** X10. An edit addressed to an id that no row has changes nothing. *)
Theorem unknown_id_changes_nothing prev id0 value :
  (forall a, In a prev -> id a <> id0) ->
  updateTicker id0 value prev = prev
  /\ updateShares id0 value prev = prev
  /\ updateTarget id0 value prev = prev.
Proof.
  intros H. repeat split; apply map_unchanged; intros a Ha;
    destruct (String.eqb_spec (id a) id0) as [E|_]; try reflexivity;
    now elim (H a Ha).
Qed.

Lemma unknown_id_changes_nothing_witness :
  updateTicker "r9" "MSFT" example_positions = example_positions
  /\ updateShares "r9" "MSFT" example_positions = example_positions
  /\ updateTarget "r9" "MSFT" example_positions = example_positions.
Proof.
  apply (unknown_id_changes_nothing example_positions "r9" "MSFT").
  intros a [<-|[<-|[]]]; discriminate.
Defined.

(** X11. How edits compose: of two ticker edits of the same row the later
    one wins, and edits of different fields commute, whichever rows they
    address. *)
Theorem edits_compose prev i j t t' s p :
  updateTicker i t' (updateTicker i t prev) = updateTicker i t' prev
  /\ updateShares i s (updateTicker j t prev) = updateTicker j t (updateShares i s prev)
  /\ updateTarget i p (updateTicker j t prev) = updateTicker j t (updateTarget i p prev)
  /\ updateTarget i p (updateShares j s prev) = updateShares j s (updateTarget i p prev).
Proof.
  unfold updateTicker, updateShares, updateTarget.
  repeat split; rewrite !map_map; apply map_ext; intros a;
    destruct (String.eqb (id a) i) eqn:Ei; cbn [id];
    try rewrite Ei; try destruct (String.eqb (id a) j) eqn:Ej; cbn [id];
    try rewrite Ei; try rewrite Ej; reflexivity.
Qed.

(** ** Adding and removing rows *)

(** X12. Adding a row and removing it again gives back the rows there
    were, provided there was one and the new id is no row's id. *)
Theorem add_then_remove prev newId :
  prev <> [] ->
  (forall a, In a prev -> id a <> newId) ->
  removeRow newId (addRow newId prev) = Normal prev.
Proof.
  intros Hne Hfresh. unfold removeRow, addRow.
  destruct (Nat.eqb_spec (List.length (prev ++ [blank newId])%list) 1) as [E|_].
  - rewrite length_app in E. cbn in E. destruct prev; [now elim Hne|cbn in E; lia].
  - rewrite filter_app. cbn [filter blank id]. rewrite String.eqb_refl.
    cbn [negb]. rewrite app_nil_r. f_equal.
    apply forallb_filter_id. apply forallb_forall. intros a Ha.
    destruct (String.eqb_spec (id a) newId) as [E|_]; [|reflexivity].
    now elim (Hfresh a Ha).
Qed.

Lemma add_then_remove_witness :
  removeRow "r3" (addRow "r3" example_positions) = Normal example_positions.
Proof.
  apply (add_then_remove example_positions "r3").
  - discriminate.
  - intros a [<-|[<-|[]]]; discriminate.
Defined.

Lemma filter_drops_one (l : list asset) a :
  NoDup (map id l) -> In a l ->
  S (List.length (filter (fun x => negb (String.eqb (id x) (id a))) l))
  = List.length l.
Proof.
  induction l as [|h rest IH]; [intros _ []|].
  cbn [map]. intros Hnd Hin. inversion Hnd as [|x l' Hnotin Hnd']; subst.
  cbn [filter List.length]. destruct (String.eqb_spec (id h) (id a)) as [E|N].
  - cbn [negb]. f_equal. f_equal. apply forallb_filter_id.
    apply forallb_forall. intros b Hb.
    destruct (String.eqb_spec (id b) (id a)) as [E'|_]; [|reflexivity].
    exfalso. apply Hnotin. rewrite E, <- E'. now apply in_map.
  - cbn [negb List.length]. f_equal. apply IH; [exact Hnd'|].
    destruct Hin as [->|Hin]; [now elim N|exact Hin].
Qed.

(** X13. On two or more rows with distinct ids, removing a row that is
    there gives the other rows, in their order, and one row fewer. *)
Theorem removeRow_removes_one prev a :
  NoDup (map id prev) ->
  (2 <= List.length prev)%nat ->
  In a prev ->
  exists next,
    removeRow (id a) prev = Normal next
    /\ S (List.length next) = List.length prev
    /\ next = filter (fun b => negb (String.eqb (id b) (id a))) prev
    /\ (forall b, In b next <-> In b prev /\ b <> a).
Proof.
  intros Hnd Hlen Hin. unfold removeRow.
  destruct (Nat.eqb_spec (List.length prev) 1) as [E|_]; [lia|].
  eexists. split; [reflexivity|]. split; [now apply filter_drops_one|].
  split; [reflexivity|]. intros b. rewrite filter_In. split.
  - intros [Hb Hid]. split; [exact Hb|]. intros ->.
    now rewrite String.eqb_refl in Hid.
  - intros [Hb Hba]. split; [exact Hb|].
    destruct (String.eqb_spec (id b) (id a)) as [E|_]; [|reflexivity].
    elim Hba. now apply (same_id_same_row prev).
Qed.

Lemma removeRow_removes_one_witness :
  exists next,
    removeRow "r1" example_positions = Normal next
    /\ S (List.length next) = List.length example_positions
    /\ next = filter (fun b => negb (String.eqb (id b) "r1")) example_positions
    /\ (forall b, In b next <->
                  In b example_positions /\ b <> Sample.position "r1" "AAPL" 10 100 120).
Proof.
  apply (removeRow_removes_one example_positions (Sample.position "r1" "AAPL" 10 100 120)).
  - repeat constructor; cbn; intuition discriminate.
  - cbn. lia.
  - now left.
Defined.

(** X14. The id is all [removeRow] goes by: on two or more rows that all
    carry the id it is given, it removes them all and leaves no row. *)
Theorem removeRow_colliding_ids prev id0 :
  (2 <= List.length prev)%nat ->
  (forall a, In a prev -> id a = id0) ->
  removeRow id0 prev = Normal [].
Proof.
  intros Hlen Hall. unfold removeRow.
  destruct (Nat.eqb_spec (List.length prev) 1) as [E|_]; [lia|]. f_equal.
  induction prev as [|h rest IH]; [reflexivity|]. cbn [filter].
  rewrite (Hall h (or_introl eq_refl)), String.eqb_refl. cbn [negb].
  destruct rest as [|h' rest']; [reflexivity|].
  destruct rest' as [|h'' rest''].
  - cbn [filter]. now rewrite (Hall h' (or_intror (or_introl eq_refl))), String.eqb_refl.
  - apply IH; [cbn; lia|]. intros a Ha. apply Hall. now right.
Qed.

Lemma removeRow_colliding_ids_witness :
  removeRow "r1" [Sample.typed "r1" "AAPL"; Sample.typed "r1" "MSFT"] = Normal [].
Proof.
  apply (removeRow_colliding_ids [Sample.typed "r1" "AAPL"; Sample.typed "r1" "MSFT"] "r1").
  - cbn. lia.
  - intros a [<-|[<-|[]]]; reflexivity.
Defined.

(** ** Rounds of [fetchAllPrices] *)

(** X15. A row without a ticker costs no request: its callback returns a
    result with no price and no error and leaves the log as it was, and an
    uninterrupted round changes nothing of the row but [loading], which it
    turns off. *)
Theorem empty_ticker_untouched nets assets i a :
  nth_error assets i = Some a ->
  ticker a = "" ->
  (forall net log, fetchOne a net log = (Normal (Result.mk (id a) None None), log))
  /\ nth_error (fetchAllPrices nets assets) i = Some (settled a).
Proof.
  intros Hi Ht. split.
  - intros net log. unfold fetchOne, truthy. now rewrite Ht.
  - unfold fetchAllPrices. rewrite fetchResults_run.
    unfold applyResults, markLoading. rewrite map_map, nth_error_map, Hi.
    cbn [option_map]. unfold truthy. rewrite Ht. cbn [String.eqb negb].
    rewrite Ht. cbn [String.eqb negb]. unfold settled. rewrite Ht.
    now destruct (find _ _).
Qed.

Lemma empty_ticker_untouched_witness :
  (forall net log,
      fetchOne (blank "r2") net log = (Normal (Result.mk "r2" None None), log))
  /\ nth_error (fetchAllPrices Session.aapl_only [Sample.typed "r1" "AAPL"; blank "r2"]) 1
     = Some (settled (blank "r2")).
Proof.
  apply (empty_ticker_untouched Session.aapl_only
           [Sample.typed "r1" "AAPL"; blank "r2"] 1 (blank "r2")); reflexivity.
Defined.

(** X16. An uninterrupted round leaves no row loading, and changes no
    row's id, ticker, [shares] or [targetPrice], nor the number or order of
    the rows. *)
Theorem round_frame nets assets :
  Forall (fun a => loading a = false) (fetchAllPrices nets assets)
  /\ map (fun a => (id a, ticker a, shares a, targetPrice a)) (fetchAllPrices nets assets)
     = map (fun a => (id a, ticker a, shares a, targetPrice a)) assets.
Proof.
  unfold fetchAllPrices. rewrite fetchResults_run.
  unfold applyResults, markLoading. split.
  - apply Forall_forall. intros a Ha.
    apply in_map_iff in Ha as (b & <- & _).
    destruct (find _ _); [|reflexivity].
    now destruct (negb (truthy (ticker b))).
  - rewrite !map_map. apply map_ext. intros a.
    destruct (truthy (ticker a)) eqn:Et; cbn [id ticker shares targetPrice];
      destruct (find _ _); try reflexivity; rewrite Et; reflexivity.
Qed.

(** X17. Results are taken by id: a result whose id no row has changes
    nothing, and of two results with the same id the first is the one that
    counts. So a round that ends after a row was removed does not bring the
    row back, nor touches the others on its account. *)
Theorem results_go_by_id r r' results prev :
  ((forall a, In a prev -> id a <> Result.id r) ->
   applyResults (r :: results) prev = applyResults results prev)
  /\ (Result.id r' = Result.id r ->
      applyResults (r :: r' :: results) prev = applyResults (r :: results) prev).
Proof.
  unfold applyResults. split.
  - intros H. apply map_ext_in. intros a Ha. cbn [find].
    destruct (String.eqb_spec (Result.id r) (id a)) as [E|_]; [|reflexivity].
    now elim (H a Ha).
  - intros E. apply map_ext. intros a. cbn [find]. rewrite E.
    now destruct (String.eqb (Result.id r) (id a)).
Qed.

Lemma results_go_by_id_witness :
  applyResults [Result.mk "gone" (Some 1%float) None] example_positions
  = applyResults [] example_positions
  /\ applyResults [Result.mk "r1" (Some 1%float) None; Result.mk "r1" (Some 2%float) None]
       example_positions
     = applyResults [Result.mk "r1" (Some 1%float) None] example_positions.
Proof.
  split.
  - destruct (results_go_by_id (Result.mk "gone" (Some 1%float) None)
                (Result.mk "gone" None None) [] example_positions) as [H _].
    apply H. intros a [<-|[<-|[]]]; discriminate.
  - destruct (results_go_by_id (Result.mk "r1" (Some 1%float) None)
                (Result.mk "r1" (Some 2%float) None) [] example_positions) as [_ H].
    apply H. reflexivity.
Defined.

(** ** Every reachable state *)

(** X18. In every state reached with ids that are new each time, the rows
    have distinct ids, all of them ids [genId] handed out, and every number
    in a row is a number: neither [shares], nor [targetPrice], nor a price
    on show is NaN. *)
Theorem reachable_rows_sound s :
  freshly_reachable s ->
  NoDup (map id (assets s))
  /\ incl (map id (assets s)) (issued s)
  /\ (forall a, In a (assets s) ->
        is_nan (shares a) = false /\ is_nan (targetPrice a) = false
        /\ (forall p, currentPrice a = Some p -> is_nan p = false)).
Proof.
  intros Hr. destruct (freshly_reachable_well_formed s Hr) as (_ & Hnd & Hin & Hnum).
  split; [exact Hnd|split; [exact Hin|]].
  intros a Ha. exact (proj1 (Forall_forall _ _) Hnum a Ha).
Qed.

Lemma reachable_rows_sound_witness :
  NoDup (map id (assets (outcome fresh_step "r1" Session.race)))
  /\ incl (map id (assets (outcome fresh_step "r1" Session.race)))
          (issued (outcome fresh_step "r1" Session.race))
  /\ (forall a, In a (assets (outcome fresh_step "r1" Session.race)) ->
        is_nan (shares a) = false /\ is_nan (targetPrice a) = false
        /\ (forall p, currentPrice a = Some p -> is_nan p = false)).
Proof.
  apply (reachable_rows_sound (outcome fresh_step "r1" Session.race)).
  exists "r1", Session.race. reflexivity.
Defined.

(** X24. As long as [genId] returns ids that are new each time, there is
    a row in every state reached, and there still is one after every
    operation: [addRow], [removeRow], [updateTicker], [updateShares],
    [updateTarget] and both state updates of [fetchAllPrices]. [removeRow] on
    a single row gives one blank row (ticker empty, shares 0, no price,
    target 0, not loading, no error) with the id of that row, and never
    fails. No operation changes the id of a row: the ids after a step are
    the ids before it, less the removed one or plus the new one. *)
Theorem rows_never_empty_with_new_ids s :
  freshly_reachable s ->
  assets s <> []
  /\ (forall e s',
        fresh_step s e = Some s' ->
        assets s' <> [] /\ map id (assets s') = ids_after e (map id (assets s)))
  /\ (forall i only,
        assets s = [only] ->
        fresh_step s (RemoveRow i)
        = Some (with_assets s
                  [{| id := id only; ticker := ""; shares := 0; currentPrice := None;
                      targetPrice := 0; loading := false; error := None |}]))
  /\ (forall i, exists s', fresh_step s (RemoveRow i) = Some s' /\ assets s' <> []).
Proof.
  intros Hr. pose proof (freshly_reachable_well_formed s Hr) as Hwf.
  assert (Hstay : forall e s', fresh_step s e = Some s' -> assets s' <> []).
  { intros e s' Hstep. apply (step_well_formed s e s' Hwf Hstep). }
  split; [|split; [|split]].
  - apply Hwf.
  - intros e s' Hstep. split; [now apply (Hstay e)|].
    apply step_ids. now apply fresh_step_step.
  - intros i only E. cbn [fresh_step step]. now rewrite E.
  - intros i. destruct (fresh_step s (RemoveRow i)) as [s'|] eqn:E.
    + exists s'. split; [reflexivity|now apply (Hstay (RemoveRow i))].
    + exfalso. cbn [fresh_step step] in E. unfold removeRow in E.
      destruct (List.length (assets s) =? 1)%nat eqn:El; [|discriminate].
      destruct (assets s) as [|a rest]; [discriminate|discriminate].
Qed.

Lemma rows_never_empty_with_new_ids_witness :
  assets (outcome fresh_step "r1" Session.add_remove) <> []
  /\ (forall e s',
        fresh_step (outcome fresh_step "r1" Session.add_remove) e = Some s' ->
        assets s' <> []
        /\ map id (assets s')
           = ids_after e (map id (assets (outcome fresh_step "r1" Session.add_remove))))
  /\ (forall i only,
        assets (outcome fresh_step "r1" Session.add_remove) = [only] ->
        fresh_step (outcome fresh_step "r1" Session.add_remove) (RemoveRow i)
        = Some (with_assets (outcome fresh_step "r1" Session.add_remove)
                  [{| id := id only; ticker := ""; shares := 0; currentPrice := None;
                      targetPrice := 0; loading := false; error := None |}]))
  /\ (forall i, exists s',
        fresh_step (outcome fresh_step "r1" Session.add_remove) (RemoveRow i) = Some s'
        /\ assets s' <> []).
Proof.
  apply (rows_never_empty_with_new_ids (outcome fresh_step "r1" Session.add_remove)).
  exists "r1", Session.add_remove. reflexivity.
Defined.

(** *** Flags, errors and prices *)

Lemma Forall_map_rows (P : asset -> Prop) (f : asset -> asset) l :
  (forall a, P a -> P (f a)) -> Forall P l -> Forall P (map f l).
Proof.
  intros Hf H. apply Forall_forall. intros a' Hin.
  apply in_map_iff in Hin as (a & <- & Ha). apply Hf.
  now apply (proj1 (Forall_forall _ _) H).
Qed.

Lemma blank_coherent i : coherent (blank i).
Proof. split; [now left|discriminate]. Qed.

Lemma results_from_coherent i nets l r :
  In r (results_from i nets l) ->
  Result.error r = None
  \/ (Result.error r = Some "Price unavailable" /\ Result.price r = None).
Proof.
  revert i. induction l as [|a rest IH]; intros i; [intros []|].
  cbn [results_from In]. intros [<-|Hin]; [|now apply (IH (S i))].
  unfold result_of. destruct (negb (truthy (ticker a))); [now left|].
  cbn [Result.price Result.error].
  destruct (fst (chain (ticker a) (nets i))); [now left|now right].
Qed.

Lemma step_coherent s e s' :
  Forall coherent (assets s) -> step s e = Some s' -> Forall coherent (assets s').
Proof.
  intros Hco.
  destruct e as [i v|i v|i v|newId|i| |k nets]; cbn [step].
  - intros [= <-]. apply Forall_map_rows; [|exact Hco].
    intros a Ha. destruct (String.eqb (id a) i); [|exact Ha].
    split; [now left|discriminate].
  - intros [= <-]. apply Forall_map_rows; [|exact Hco].
    intros a Ha. now destruct (String.eqb (id a) i).
  - intros [= <-]. apply Forall_map_rows; [|exact Hco].
    intros a Ha. now destruct (String.eqb (id a) i).
  - intros [= <-]. cbn [assets].
    apply Forall_app. split; [exact Hco|].
    apply Forall_cons; [apply blank_coherent|apply Forall_nil].
  - unfold removeRow. destruct (List.length (assets s) =? 1)%nat.
    + destruct (nth_error (assets s) 0); [|discriminate]. intros [= <-].
      apply Forall_cons; [apply blank_coherent|apply Forall_nil].
    + intros [= <-]. cbn [assets with_assets]. apply Forall_forall.
      intros a Ha. apply filter_In in Ha as [Ha _].
      now apply (proj1 (Forall_forall _ _) Hco).
  - intros [= <-]. apply Forall_map_rows; [|exact Hco].
    intros a Ha. destruct (truthy (ticker a)) eqn:Et; [|exact Ha].
    split; [now left|]. intros _. cbn [ticker currentPrice error].
    apply truthy_nonempty in Et. now repeat split.
  - destruct (nth_error _ k) as [snapshot|]; [|discriminate].
    rewrite fetchResults_run. intros [= <-]. cbn [assets].
    apply Forall_map_rows; [|exact Hco].
    intros a [Herr _].
    destruct (find _ _) as [res|] eqn:Ef; [|split; [exact Herr|discriminate]].
    destruct (negb (truthy (ticker a))); [split; [exact Herr|discriminate]|].
    split; [|discriminate]. cbn [error currentPrice].
    apply find_some in Ef as [Hin _].
    now apply (results_from_coherent _ _ _ _ Hin).
Qed.

Lemma step_loading s e s' :
  loading_means_inflight s -> step s e = Some s' -> loading_means_inflight s'.
Proof.
  intros Hl.
  assert (Hkeep : forall (f : asset -> asset),
             (forall a, loading (f a) = true -> loading a = true) ->
             (exists a', In a' (map f (assets s)) /\ loading a' = true) ->
             inflight s <> []).
  { intros f Hf (a' & Hin & Hload). apply in_map_iff in Hin as (a & <- & Ha).
    apply Hl. exists a. split; [exact Ha|now apply Hf]. }
  destruct e as [i v|i v|i v|newId|i| |k nets]; cbn [step].
  - intros [= <-]. unfold loading_means_inflight. cbn [assets inflight with_assets].
    apply Hkeep. intros a. now destruct (String.eqb (id a) i).
  - intros [= <-]. unfold loading_means_inflight. cbn [assets inflight with_assets].
    apply Hkeep. intros a. now destruct (String.eqb (id a) i).
  - intros [= <-]. unfold loading_means_inflight. cbn [assets inflight with_assets].
    apply Hkeep. intros a. now destruct (String.eqb (id a) i).
  - intros [= <-].
    intros (a' & Hin & Hload). cbn [assets inflight] in *.
    apply in_app_or in Hin as [Hin|[<-|[]]]; [|discriminate].
    apply Hl. now exists a'.
  - unfold removeRow. destruct (List.length (assets s) =? 1)%nat.
    + destruct (nth_error (assets s) 0); [|discriminate]. intros [= <-].
      intros (a' & [<-|[]] & Hload). discriminate.
    + intros [= <-]. intros (a' & Hin & Hload). cbn [assets inflight with_assets] in *.
      apply filter_In in Hin as [Hin _]. apply Hl. now exists a'.
  - intros [= <-] _. cbn [inflight]. now destruct (inflight s).
  - destruct (nth_error _ k) as [snapshot|]; [|discriminate].
    rewrite fetchResults_run. intros [= <-]. intros (a' & Hin & Hload).
    cbn [assets] in Hin. exfalso.
    apply in_map_iff in Hin as (a & <- & _). revert Hload.
    destruct (find _ _); [|discriminate].
    now destruct (negb (truthy (ticker a))).
Qed.

Lemma run_flags events s s' :
  Forall coherent (assets s) -> loading_means_inflight s ->
  run step s events = Some s' ->
  Forall coherent (assets s') /\ loading_means_inflight s'.
Proof.
  revert s. induction events as [|e rest IH]; intros s Hco Hl; cbn [run].
  - intros [= <-]. now split.
  - destruct (step s e) as [s1|] eqn:E; [|discriminate].
    apply IH; [now apply (step_coherent s e)|now apply (step_loading s e)].
Qed.

Lemma reachable_row_flags s a :
  reachable s -> In a (assets s) ->
  coherent a /\ (loading a = true -> inflight s <> []).
Proof.
  intros (firstId & events & Hrun) Ha.
  destruct (run_flags events (init firstId) s) as [Hco Hl]; try exact Hrun.
  - apply Forall_cons; [apply blank_coherent|apply Forall_nil].
  - intros (b & [<-|[]] & Hb). discriminate.
  - split; [exact (proj1 (Forall_forall _ _) Hco a Ha)|].
    intros L. apply Hl. now exists a.
Qed.

(** X19. In every reachable state, for every row: the error is null or
    the message "Price unavailable", and a row with an error shows no price;
    a row that is loading has a ticker, no price and no error, and some round
    is in flight. *)
Theorem reachable_flags s a :
  reachable s ->
  In a (assets s) ->
  (error a = None \/ (error a = Some "Price unavailable" /\ currentPrice a = None))
  /\ (loading a = true ->
      ticker a <> "" /\ currentPrice a = None /\ error a = None
      /\ inflight s <> []).
Proof.
  intros Hr Ha. destruct (reachable_row_flags s a Hr Ha) as [[Herr Hload] Hfly].
  split; [exact Herr|]. intros L. destruct (Hload L) as (H1 & H2 & H3).
  repeat split; try assumption. now apply Hfly.
Qed.

Lemma reachable_flags_witness :
  (error (Sample.position "r1" "MSFT" 0 187.5 0) = None
   \/ (error (Sample.position "r1" "MSFT" 0 187.5 0) = Some "Price unavailable"
       /\ currentPrice (Sample.position "r1" "MSFT" 0 187.5 0) = None))
  /\ (loading (Sample.position "r1" "MSFT" 0 187.5 0) = true ->
      ticker (Sample.position "r1" "MSFT" 0 187.5 0) <> ""
      /\ currentPrice (Sample.position "r1" "MSFT" 0 187.5 0) = None
      /\ error (Sample.position "r1" "MSFT" 0 187.5 0) = None
      /\ inflight (outcome step "r1" Session.race) <> []).
Proof.
  apply (reachable_flags (outcome step "r1" Session.race)).
  - exists "r1", Session.race. reflexivity.
  - vm_compute. left. reflexivity.
Defined.

(** X20. What the price cell shows, in every reachable state: whenever the
    row has a price, a dollar sign followed by what [toFixed(2)] makes of
    the price; else the loading mark while the row is loading; else the
    error message when there is one; else a dash. *)
Theorem price_cell_shows s a :
  reachable s ->
  In a (assets s) ->
  priceCell a
  = match currentPrice a with
    | Some p => Price ("$" ++ Format.toFixed p 2)
    | None =>
        if loading a then Loading
        else match error a with
             | Some message => Failed message
             | None => Dash
             end
    end.
Proof.
  intros Hr Ha. destruct (reachable_row_flags s a Hr Ha) as [[Herr Hload] _].
  unfold priceCell. destruct (loading a).
  - destruct (Hload eq_refl) as (_ & -> & _). reflexivity.
  - destruct Herr as [->|[-> ->]]; reflexivity.
Qed.

Lemma price_cell_shows_witness :
  priceCell (Sample.position "r1" "MSFT" 0 187.5 0) = Price "$187.50".
Proof.
  apply (price_cell_shows (outcome step "r1" Session.race)
           (Sample.position "r1" "MSFT" 0 187.5 0)).
  - exists "r1", Session.race. reflexivity.
  - vm_compute. left. reflexivity.
Defined.

(** ** Figures without prices, and the chart *)

Lemma times_zero_spec x : zero_or_nan (Prim2SF (x * 0)).
Proof.
  rewrite FloatAxioms.mul_spec. change (Prim2SF 0) with (S754_zero false).
  now destruct (Prim2SF x).
Qed.

Lemma zero_or_nan_not_positive x : zero_or_nan (Prim2SF x) -> (0 <? x)%float = false.
Proof.
  rewrite FloatAxioms.ltb_spec. change (Prim2SF 0) with (S754_zero false).
  now destruct (Prim2SF x).
Qed.

Lemma zero_or_nan_sum x y :
  zero_or_nan (Prim2SF x) -> zero_or_nan (Prim2SF y) -> zero_or_nan (Prim2SF (x + y)).
Proof.
  rewrite FloatAxioms.add_spec.
  destruct (Prim2SF x) as [sx|sx| |sx mx ex], (Prim2SF y) as [sy|sy| |sy my ey];
    try easy.
  intros _ _. cbn. now destruct sx, sy.
Qed.

Lemma unpriced_value a :
  currentPrice a = None -> zero_or_nan (Prim2SF (currentValue (derive a))).
Proof. intros H. cbn [derive currentValue]. rewrite H. apply times_zero_spec. Qed.

(** X21. A row without a price has no return percentage, whatever its
    [shares] and [targetPrice]: its current value is not above 0. And when
    no row has a price, the portfolio has no return percentage either. *)
Theorem no_price_no_return assets :
  (forall a, currentPrice a = None ->
     (0 <? currentValue (derive a))%float = false /\ returnPct (derive a) = None)
  /\ ((forall a, In a assets -> currentPrice a = None) ->
      (0 <? currentTotal assets)%float = false /\ portfolioReturnPct assets = None).
Proof.
  assert (Hrow : forall a, currentPrice a = None ->
                           (0 <? currentValue (derive a))%float = false).
  { intros a H. apply zero_or_nan_not_positive. now apply unpriced_value. }
  split.
  - intros a H. split; [now apply Hrow|].
    pose proof (Hrow a H) as Hv. cbn [derive currentValue returnPct] in *.
    now rewrite Hv.
  - intros Hall.
    assert (Ht : (0 <? currentTotal assets)%float = false).
    { apply zero_or_nan_not_positive. unfold currentTotal. rewrite fold_left_rows.
      assert (G : forall acc, zero_or_nan (Prim2SF acc) ->
                  zero_or_nan
                    (Prim2SF (fold_left (fun acc a => (acc + currentValue (derive a))%float)
                                assets acc))).
      { induction assets as [|a rest IH]; intros acc Hacc; [exact Hacc|].
        cbn [fold_left]. apply IH.
        - intros b Hb. apply Hall. now right.
        - apply zero_or_nan_sum; [exact Hacc|].
          apply unpriced_value, Hall. now left. }
      now apply G. }
    split; [exact Ht|]. unfold portfolioReturnPct. now rewrite Ht.
Qed.

Lemma no_price_no_return_witness :
  (0 <? currentTotal [Sample.typed "r1" "AAPL"; blank "r2"])%float = false
  /\ portfolioReturnPct [Sample.typed "r1" "AAPL"; blank "r2"] = None.
Proof.
  destruct (no_price_no_return [Sample.typed "r1" "AAPL"; blank "r2"]) as [_ H].
  apply H. intros a [<-|[<-|[]]]; reflexivity.
Defined.

Lemma chart_names toUpperCase assets :
  map Chart.name (chartData toUpperCase assets)
  = map (fun a => toUpperCase (ticker a))
        (filter (fun a => charted (a, derive a)) assets).
Proof.
  unfold chartData, rows. rewrite map_map. cbn [Chart.name].
  induction assets as [|a rest IH]; [reflexivity|]. cbn [map filter].
  destruct (charted (a, derive a)); cbn [map fst]; now rewrite IH.
Qed.

(** X22. Every bar of the chart stands for a row that has a ticker and a
    price, is named by what [toUpperCase] makes of that ticker, and carries
    a return percentage: in [chartData] the null branch of [ReturnPct] is
    never taken. The bars follow the order of the rows, and when no row has
    a price there is no bar. *)
Theorem chart_shows_priced_rows toUpperCase assets :
  (forall b, In b (chartData toUpperCase assets) ->
     exists a p,
       In a assets /\ ticker a <> "" /\ currentPrice a = Some p
       /\ Chart.name b = toUpperCase (ticker a)
       /\ Chart.ReturnPct b <> None)
  /\ map Chart.name (chartData toUpperCase assets)
     = map (fun a => toUpperCase (ticker a))
           (filter (fun a => charted (a, derive a)) assets)
  /\ ((forall a, In a assets -> currentPrice a = None) -> chartData toUpperCase assets = []).
Proof.
  assert (Hbar : forall b, In b (chartData toUpperCase assets) ->
            exists a p,
              In a assets /\ ticker a <> "" /\ currentPrice a = Some p
              /\ Chart.name b = toUpperCase (ticker a)
              /\ Chart.ReturnPct b <> None).
  { intros b Hb. unfold chartData in Hb.
    apply in_map_iff in Hb as (r & <- & Hr). apply filter_In in Hr as [Hr Hc].
    unfold rows in Hr. apply in_map_iff in Hr as (a & <- & Ha).
    unfold charted in Hc. cbn [fst snd] in Hc.
    apply andb_prop in Hc as [Hc Htv]. apply andb_prop in Hc as [Ht Hcv].
    destruct (currentPrice a) as [p|] eqn:Ep.
    - exists a, p. repeat split; try assumption.
      + now apply truthy_nonempty.
      + cbn [Chart.ReturnPct snd derive returnPct currentValue] in *.
        rewrite Ep. cbn [price_or_zero]. rewrite Ep in Hcv. cbn [price_or_zero] in Hcv.
        now rewrite Hcv.
    - pose proof (zero_or_nan_not_positive _ (unpriced_value a Ep)) as Hz.
      congruence. }
  split; [exact Hbar|split].
  - apply chart_names.
  - intros Hall. destruct (chartData toUpperCase assets) as [|b rest] eqn:E; [reflexivity|].
    destruct (Hbar b) as (a & p & Ha & _ & Hp & _); [now left|].
    rewrite (Hall a Ha) in Hp. discriminate.
Qed.

Lemma chart_shows_priced_rows_witness :
  chartData (fun name => name) [Sample.typed "r1" "AAPL"; blank "r2"] = [].
Proof.
  destruct (chart_shows_priced_rows (fun name => name)
              [Sample.typed "r1" "AAPL"; blank "r2"])
    as (_ & _ & H).
  apply H. intros a [<-|[<-|[]]]; reflexivity.
Defined.

(** ** Row ids *)

Lemma uint_digits d : JS.all_chars JS.is_digit (NilEmpty.string_of_uint d) = true.
Proof. induction d; cbn [NilEmpty.string_of_uint JS.all_chars]; now rewrite ?IHd. Qed.

Lemma to_uint_nonnil p : Pos.to_uint p <> Decimal.Nil.
Proof.
  intros E. pose proof (DecimalPos.Unsigned.of_to p) as H. rewrite E in H.
  discriminate.
Qed.

(** The digits of an integer that is not negative are digits. *)
Lemma integer_string_digits z :
  (0 <= z)%Z -> JS.all_chars JS.is_digit (Format.integer_string z) = true.
Proof.
  intros Hz. unfold Format.integer_string. destruct z as [|p|p]; [reflexivity| |lia].
  cbn [Z.to_int NilZero.string_of_int]. unfold NilZero.string_of_uint.
  pose proof (to_uint_nonnil p). pose proof (uint_digits (Pos.to_uint p)).
  now destruct (Pos.to_uint p).
Qed.

Lemma integer_string_injective z z' :
  Format.integer_string z = Format.integer_string z' -> z = z'.
Proof.
  unfold Format.integer_string. intros H.
  assert (Hn : forall y, Z.to_int y <> Decimal.Pos Decimal.Nil
                         /\ Z.to_int y <> Decimal.Neg Decimal.Nil).
  { intros [|p|p]; cbn [Z.to_int]; split; try discriminate;
      intros [= E]; now apply to_uint_nonnil in E. }
  apply (f_equal NilZero.int_of_string) in H.
  rewrite !NilZero.isi in H by apply Hn.
  injection H as H. apply (f_equal Z.of_int) in H.
  now rewrite !DecimalZ.of_to in H.
Qed.

(** Two strings of digits joined to their tails by a dash: the dash tells
    where the digits end. *)
Lemma dash_splits a a' b b' :
  JS.all_chars JS.is_digit a = true ->
  JS.all_chars JS.is_digit a' = true ->
  a ++ "-" ++ b = a' ++ "-" ++ b' -> a = a' /\ b = b'.
Proof.
  revert a'. induction a as [|c r IH]; intros [|c' r'] Ha Ha'; cbn [append].
  - now intros [= ->].
  - intros [= <- _]. cbn in Ha'. discriminate.
  - intros [= -> _]. cbn in Ha. discriminate.
  - intros [= -> H]. cbn [JS.all_chars] in Ha, Ha'.
    apply andb_prop in Ha as [_ Ha]. apply andb_prop in Ha' as [_ Ha'].
    destruct (IH r' Ha Ha' H) as [-> ->]. now split.
Qed.

Lemma floor_string_integer x n :
  Format.floor x = Some n -> (Z.abs n < 10 ^ 21)%Z ->
  Format.floor_string x = Format.integer_string n.
Proof.
  unfold Format.floor, Format.floor_string.
  destruct (Prim2SF x) as [s|s| |s m e]; try discriminate.
  - now intros [= <-].
  - intros [= <-] Hn.
    destruct (Z.leb_spec (10 ^ 21) (Z.abs (if (0 <=? e)%Z
                                          then ((if s then Z.neg m else Z.pos m) * 2 ^ e)%Z
                                          else ((if s then Z.neg m else Z.pos m) / 2 ^ (- e))%Z)));
      [lia|reflexivity].
Qed.

(** X23. What tells two ids apart. When the clock is not before the epoch
    and the scaled draws floor to integers from 0 up (as those of
    [Math.random] do), two calls of [genId] return the same id exactly when
    they read the same millisecond and their draws have the same floor:
    the random part separates 100000 ids within a millisecond, no more. *)
Theorem genId_collides_when now now' random random' n n' :
  (0 <= now)%Z -> (0 <= now')%Z ->
  Format.floor (random * 100000) = Some n ->
  Format.floor (random' * 100000) = Some n' ->
  (0 <= n < 10 ^ 21)%Z -> (0 <= n' < 10 ^ 21)%Z ->
  genId now random = genId now' random' <-> now = now' /\ n = n'.
Proof.
  intros Hnow Hnow' Hf Hf' Hn Hn'. unfold genId.
  rewrite (floor_string_integer _ _ Hf), (floor_string_integer _ _ Hf') by lia.
  split.
  - intros H.
    apply dash_splits in H as [H1 H2]; try (apply integer_string_digits; lia).
    split; now apply integer_string_injective.
  - now intros [-> ->].
Qed.

Lemma genId_collides_when_witness :
  genId 1730500000000 0.5 = genId 1730500000000 0.500003814697265625
  <-> 1730500000000%Z = 1730500000000%Z /\ 50000%Z = 50000%Z.
Proof.
  apply (genId_collides_when 1730500000000 1730500000000
           0.5 0.500003814697265625 50000 50000);
    try lia; reflexivity.
Defined.
